(** * HubSpot MCP server: request translation and response normalisation

    A shallow embedding of [src/index.ts] (class [MyMCP]): the response
    formatter, the API client, its two error-handling wrappers and the five
    registered tool handlers, followed by the properties of the
    specification checked against them.

    Conventions of the embedding.
    - A JavaScript string is a [string] (its UTF-8 bytes).
    - A JavaScript number is an element of an abstract carrier [number]
      with the few operations the program uses ([JSNumber]); every
      theorem holds for any such carrier.
    - A JavaScript object is the list of its own enumerable properties in
      the order [Object.entries] and [JSON.stringify] traverse them (for
      keys that are not array indices: insertion order).
    - [async] code is sequential here: a computation is a function from
      the log of HTTP requests issued so far to an outcome (a thrown
      exception or a value) and the extended log. *)

From Stdlib Require Import String Ascii List NArith ZArith Bool Lia.
From Stdlib Require Import DecimalString.
Import ListNotations.
Local Open Scope list_scope.
Local Open Scope string_scope.
Set Warnings "-register-all".

(** ** The JavaScript runtime the program relies on *)

Module JS.

(** *** Numbers *)

Class JSNumber : Type := {
  number : Type;
  number_add : number -> number -> number;      (* a + b *)
  number_ltb : number -> number -> bool;        (* a < b *)
  number_isFinite : number -> bool;             (* Number.isFinite *)
  number_of_Z : Z -> number;                    (* an integer literal *)
  Number_toString : number -> string            (* String(n) *)
}.

(** Integer status codes print in decimal. *)
Definition N_toString (n : N) : string :=
  NilZero.string_of_uint (N.to_uint n).

(** *** Characters *)

Definition dquote : ascii := ascii_of_N 34.
Definition backslash : ascii := ascii_of_N 92.

Definition char1 (c : ascii) : string := String c EmptyString.

Definition hex_upper (d : N) : ascii :=
  if (d <? 10)%N then ascii_of_N (48 + d) else ascii_of_N (55 + d).

Definition hex_lower (d : N) : ascii :=
  if (d <? 10)%N then ascii_of_N (48 + d) else ascii_of_N (87 + d).

Definition is_alnum (n : N) : bool :=
  ((48 <=? n) && (n <=? 57) || (65 <=? n) && (n <=? 90)
   || (97 <=? n) && (n <=? 122))%N.

(** *** Objects as association lists *)

Fixpoint lookup {A : Type} (k : string) (o : list (string * A)) : option A :=
  match o with
  | [] => None
  | (k', v) :: rest => if String.eqb k k' then Some v else lookup k rest
  end.

(** Assignment [o[k] = v]: overwrites in place, or adds a last property. *)
Fixpoint set {A : Type} (k : string) (v : A) (o : list (string * A))
  : list (string * A) :=
  match o with
  | [] => [(k, v)]
  | (k', v') :: rest =>
      if String.eqb k k' then (k, v) :: rest else (k', v') :: set k v rest
  end.

(** *** Values *)

Section Values.
Context {Num : JSNumber}.

Inductive value : Type :=
| VUndefined
| VNull
| VBool (b : bool)
| VNum (n : number)
| VStr (s : string)
| VArr (elems : list value)
| VObj (fields : list (string * value)).

Definition obj : Type := list (string * value).

Definition typeof (v : value) : string :=
  match v with
  | VUndefined => "undefined"
  | VNull => "object"
  | VBool _ => "boolean"
  | VNum _ => "number"
  | VStr _ => "string"
  | VArr _ | VObj _ => "object"
  end.

(** Property read [o[k]]: [VUndefined] when the key is absent. *)
Definition get (k : string) (o : obj) : value :=
  match lookup k o with
  | Some v => v
  | None => VUndefined
  end.

(** [String(v)], the ToString coercion, for the values it succeeds on
    (its failure on an object that owns a [toString] property is
    [ToPrimitive_string] below). *)
Fixpoint ToString (v : value) : string :=
  match v with
  | VUndefined => "undefined"
  | VNull => "null"
  | VBool true => "true"
  | VBool false => "false"
  | VNum n => Number_toString n
  | VStr s => s
  | VArr l =>
      String.concat ","
        ((fix elems (l : list value) : list string :=
            match l with
            | [] => []
            | x :: r =>
                match x with
                | VUndefined | VNull => EmptyString
                | _ => ToString x
                end :: elems r
            end) l)
  | VObj _ => "[object Object]"
  end.

(** *** JSON.stringify *)

Definition QuoteJSONChar (c : ascii) : string :=
  let n := N_of_ascii c in
  if (n =? 34)%N then String backslash (char1 dquote)
  else if (n =? 92)%N then String backslash (char1 backslash)
  else if (n =? 8)%N then String backslash "b"
  else if (n =? 12)%N then String backslash "f"
  else if (n =? 10)%N then String backslash "n"
  else if (n =? 13)%N then String backslash "r"
  else if (n =? 9)%N then String backslash "t"
  else if (n <? 32)%N then
    String backslash
      ("u00" ++ String (hex_lower (n / 16)) (char1 (hex_lower (n mod 16))))
  else char1 c.

Fixpoint QuoteJSONBody (s : string) : string :=
  match s with
  | EmptyString => EmptyString
  | String c r => QuoteJSONChar c ++ QuoteJSONBody r
  end.

Definition QuoteJSONString (s : string) : string :=
  String dquote (QuoteJSONBody s ++ char1 dquote).

(** [None] stands for the result [undefined]. *)
Fixpoint SerializeJSONProperty (v : value) : option string :=
  match v with
  | VUndefined => None
  | VNull => Some "null"
  | VBool true => Some "true"
  | VBool false => Some "false"
  | VNum n => Some (if number_isFinite n then Number_toString n else "null")
  | VStr s => Some (QuoteJSONString s)
  | VArr l =>
      Some ("[" ++ String.concat ","
        ((fix elems (l : list value) : list string :=
            match l with
            | [] => []
            | x :: r =>
                match SerializeJSONProperty x with
                | Some s => s
                | None => "null"
                end :: elems r
            end) l) ++ "]")
  | VObj fs =>
      Some ("{" ++ String.concat ","
        ((fix props (fs : list (string * value)) : list string :=
            match fs with
            | [] => []
            | (k, x) :: r =>
                match SerializeJSONProperty x with
                | Some s => (QuoteJSONString k ++ ":" ++ s) :: props r
                | None => props r
                end
            end) fs) ++ "}")
  end.

Definition JSON_stringify (v : value) : option string :=
  SerializeJSONProperty v.

(** [JSON.stringify] applied to an object or an array always yields text. *)
Definition JSON_stringify_object (v : value) : string :=
  match SerializeJSONProperty v with
  | Some s => s
  | None => "undefined"
  end.

End Values.

(** *** URLSearchParams *)

Definition urlencode_byte (c : ascii) : string :=
  let n := N_of_ascii c in
  if (n =? 32)%N then "+"
  else if is_alnum n || (n =? 42)%N || (n =? 45)%N || (n =? 46)%N
          || (n =? 95)%N
  then char1 c
  else String "%" (String (hex_upper (n / 16)) (char1 (hex_upper (n mod 16)))).

Fixpoint urlencode (s : string) : string :=
  match s with
  | EmptyString => EmptyString
  | String c r => urlencode_byte c ++ urlencode r
  end.

Definition URLSearchParams : Type := list (string * string).

Definition URLSearchParams_append (q : URLSearchParams) (k v : string)
  : URLSearchParams := (q ++ [(k, v)])%list.

Definition URLSearchParams_toString (q : URLSearchParams) : string :=
  String.concat "&" (map (fun kv => urlencode (fst kv) ++ "=" ++ urlencode (snd kv)) q).

(** *** Exceptions

    Every value this program throws or catches is an [Error] object; its
    [message] is what the handlers read. *)

Record exn : Type := { exn_name : string; message : string }.

Definition Error (msg : string) : exn := {| exn_name := "Error"; message := msg |}.
Definition TypeError (msg : string) : exn := {| exn_name := "TypeError"; message := msg |}.
Definition SyntaxError (msg : string) : exn := {| exn_name := "SyntaxError"; message := msg |}.

(** *** Computations: exceptions and the log of issued HTTP requests

    The log lists the requests handed to [fetch], oldest first; it keeps
    growing when a later step throws. *)

Record RequestInit : Type := {
  method : string;
  headers : list (string * string);
  body : option string
}.

Record Request : Type := { url : string; init : RequestInit }.

Definition M (A : Type) : Type :=
  list Request -> (exn + A) * list Request.

Definition ret {A : Type} (a : A) : M A := fun log => (inr a, log).

Definition throw {A : Type} (e : exn) : M A := fun log => (inl e, log).

Definition bind {A B : Type} (m : M A) (k : A -> M B) : M B :=
  fun log =>
    match m log with
    | (inl e, log') => (inl e, log')
    | (inr a, log') => k a log'
    end.

(** [try { m } catch (error) { h error }] *)
Definition try_catch {A : Type} (m : M A) (h : exn -> M A) : M A :=
  fun log =>
    match m log with
    | (inl e, log') => h e log'
    | (inr a, log') => (inr a, log')
    end.

Declare Scope js_scope.
Delimit Scope js_scope with js.
Notation "x <- m ;; k" := (bind m (fun x => k))
  (at level 61, m at next level, right associativity) : js_scope.

(** *** fetch, Response and method calls on values *)

Section Fetch.
Context {Num : JSNumber}.

(** A received response: its status line and what [response.json()] does
    with its body (the parsed value, or the exception it throws). *)
Record Response : Type := {
  status : N;
  json_result : exn + value
}.

(** [response.ok]: the status is in the range 200-299. *)
Definition ok (r : Response) : bool :=
  ((200 <=? status r) && (status r <=? 299))%N.

Definition Response_json (r : Response) : M value :=
  fun log => (json_result r, log).

(** The network: a request is answered, or the transport fails. *)
Inductive FetchOutcome : Type :=
| Rejected (e : exn)
| Resolved (r : Response).

Definition Network : Type := Request -> FetchOutcome.

Definition fetch (net : Network) (u : string) (i : RequestInit) : M Response :=
  fun log =>
    let req := {| url := u; init := i |} in
    (match net req with
     | Rejected e => inl e
     | Resolved r => inr r
     end, (log ++ [req])%list).

(** A list traversed left to right; the first exception ends it. *)
Definition traverse {A B : Type} (f : A -> exn + B) : list A -> exn + list B :=
  fix go (l : list A) : exn + list B :=
    match l with
    | [] => inr []
    | x :: r =>
        match f x with
        | inl e => inl e
        | inr y =>
            match go r with
            | inl e => inl e
            | inr ys => inr (y :: ys)
            end
        end
    end.

(** The conversion of a value to a string, with its failure.  None of
    these values is a function: an object that owns a [toString] property
    hides [Object.prototype.toString] behind a value that cannot be called,
    and its conversion throws.  An array is joined with commas, its
    undefined and null elements left empty and the others converted in
    turn. *)
Fixpoint ToPrimitive_string (v : value) : exn + string :=
  match v with
  | VObj fs =>
      match lookup "toString" fs with
      | Some _ => inl (TypeError "Cannot convert object to primitive value")
      | None => inr "[object Object]"
      end
  | VArr l =>
      match traverse
              (fun x =>
                 match x with
                 | VUndefined | VNull => inr EmptyString
                 | _ => ToPrimitive_string x
                 end) l with
      | inl e => inl e
      | inr ss => inr (String.concat "," ss)
      end
  | _ => inr (ToString v)
  end.

(** The method call [value.toString()]: it cannot be made on undefined and
    null, nor on an object whose own [toString] property is not a
    function; an array's elements are converted as above. *)
Definition toString_result (v : value) : exn + string :=
  match v with
  | VUndefined =>
      inl (TypeError "Cannot read properties of undefined (reading 'toString')")
  | VNull =>
      inl (TypeError "Cannot read properties of null (reading 'toString')")
  | VObj fs =>
      match lookup "toString" fs with
      | Some _ => inl (TypeError "value.toString is not a function")
      | None => inr "[object Object]"
      end
  | _ => ToPrimitive_string v
  end.

Definition toString_method (v : value) : M string :=
  fun log => (toString_result v, log).

End Fetch.

End JS.

(** ** The argument schemas: the zod combinators used in [init] *)

Module Zod.
Import JS.

Inductive PathItem : Type :=
| at_key (k : string)
| at_index (i : nat).

Inductive IssueCode : Type :=
| invalid_type (expected received : string)
| invalid_enum_value (received : string) (options : list string)
| too_small (minimum : Z)
| too_big (maximum : Z).

(** Where validation failed and why (the first issue in traversal order). *)
Record ZodIssue : Type := { code : IssueCode; path : list PathItem }.

Definition andThen {A B : Type} (r : ZodIssue + A) (k : A -> ZodIssue + B)
  : ZodIssue + B :=
  match r with
  | inl i => inl i
  | inr a => k a
  end.

Notation "'let?' x ':=' m 'in' k" := (andThen m (fun x => k))
  (at level 10, x name, m at level 100, k at level 200).

Section Combinators.
Context {Num : JSNumber}.

Definition Parser (A : Type) : Type := list PathItem -> value -> ZodIssue + A.

Definition received (v : value) : string :=
  match v with
  | VNull => "null"
  | VArr _ => "array"
  | _ => typeof v
  end.

Definition z_any : Parser value := fun _ v => inr v.

Definition z_string : Parser string :=
  fun p v =>
    match v with
    | VStr s => inr s
    | _ => inl {| code := invalid_type "string" (received v); path := p |}
    end.

(** [z.number().min(lo).max(hi)] *)
Definition z_number_min_max (lo hi : Z) : Parser number :=
  fun p v =>
    match v with
    | VNum n =>
        if number_ltb n (number_of_Z lo) then
          inl {| code := too_small lo; path := p |}
        else if number_ltb (number_of_Z hi) n then
          inl {| code := too_big hi; path := p |}
        else inr n
    | _ => inl {| code := invalid_type "number" (received v); path := p |}
    end.

Definition z_enum {A : Type} (options : list (string * A)) : Parser A :=
  fun p v =>
    match v with
    | VStr s =>
        match lookup s options with
        | Some a => inr a
        | None =>
            inl {| code := invalid_enum_value s (map fst options); path := p |}
        end
    | _ =>
        inl {| code := invalid_type (String.concat " | " (map fst options))
                         (received v);
               path := p |}
    end.

Definition z_optional {A : Type} (f : Parser A) : Parser (option A) :=
  fun p v =>
    match v with
    | VUndefined => inr None
    | _ => let? a := f p v in inr (Some a)
    end.

Fixpoint parse_elems {A : Type} (f : Parser A) (p : list PathItem) (i : nat)
    (l : list value) : ZodIssue + list A :=
  match l with
  | [] => inr []
  | x :: r =>
      let? y := f (p ++ [at_index i])%list x in
      let? ys := parse_elems f p (S i) r in
      inr (y :: ys)
  end.

Definition z_array {A : Type} (f : Parser A) : Parser (list A) :=
  fun p v =>
    match v with
    | VArr l => parse_elems f p 0 l
    | _ => inl {| code := invalid_type "array" (received v); path := p |}
    end.

(** [z.object({...})]: the value must be an object; [shape] reads its
    properties. *)
Definition z_object {A : Type} (shape : list PathItem -> obj -> ZodIssue + A)
  : Parser A :=
  fun p v =>
    match v with
    | VObj fs => shape p fs
    | _ => inl {| code := invalid_type "object" (received v); path := p |}
    end.

(** The property [k] of an object under validation. *)
Definition field {A : Type} (k : string) (f : Parser A) (p : list PathItem)
    (fs : obj) : ZodIssue + A :=
  f (p ++ [at_key k])%list (get k fs).

End Combinators.

End Zod.

(** ** The program: class [MyMCP] of [src/index.ts] *)

Module MyMCP.
Import JS Zod.
Local Open Scope js_scope.

(** The uniform tool result [{content: [{type: "text", text}]}]. *)
Record TextContent : Type := { type : string; text : string }.
Record Envelope : Type := { content : list TextContent }.

(** *** Validated tool arguments (the shapes declared with zod in [init]) *)

Inductive AssociationKind : Type := contacts | deals | tickets.

Definition AssociationKind_name (k : AssociationKind) : string :=
  match k with
  | contacts => "contacts"
  | deals => "deals"
  | tickets => "tickets"
  end.

Inductive Operator : Type :=
| EQ | NEQ | LT | LTE | GT | GTE | BETWEEN | IN | NOT_IN
| HAS_PROPERTY | NOT_HAS_PROPERTY | CONTAINS_TOKEN | NOT_CONTAINS_TOKEN.

Definition Operator_name (o : Operator) : string :=
  match o with
  | EQ => "EQ" | NEQ => "NEQ" | LT => "LT" | LTE => "LTE" | GT => "GT"
  | GTE => "GTE" | BETWEEN => "BETWEEN" | IN => "IN" | NOT_IN => "NOT_IN"
  | HAS_PROPERTY => "HAS_PROPERTY" | NOT_HAS_PROPERTY => "NOT_HAS_PROPERTY"
  | CONTAINS_TOKEN => "CONTAINS_TOKEN"
  | NOT_CONTAINS_TOKEN => "NOT_CONTAINS_TOKEN"
  end.

Definition operators : list Operator :=
  [EQ; NEQ; LT; LTE; GT; GTE; BETWEEN; IN; NOT_IN; HAS_PROPERTY;
   NOT_HAS_PROPERTY; CONTAINS_TOKEN; NOT_CONTAINS_TOKEN].

Inductive Direction : Type := ASCENDING | DESCENDING.

Definition Direction_name (d : Direction) : string :=
  match d with
  | ASCENDING => "ASCENDING"
  | DESCENDING => "DESCENDING"
  end.

Section Program.
Context {Num : JSNumber}.

Record AssociationType : Type := {
  associationCategory : string;
  associationTypeId : number
}.

Record Association : Type := {
  to_id : string;
  types : list AssociationType
}.

Record CreateCompanyArgs : Type := {
  cc_properties : obj;
  cc_associations : option (list Association)
}.

Record UpdateCompanyArgs : Type := {
  uc_companyId : string;
  uc_properties : obj
}.

Record GetCompanyArgs : Type := {
  gc_companyId : string;
  gc_properties : option (list string);
  gc_associations : option (list AssociationKind)
}.

Record Filter : Type := {
  propertyName : string;
  operator : Operator;
  filter_value : value
}.

Record FilterGroup : Type := { filters : list Filter }.

Record Sort : Type := {
  sort_propertyName : string;
  direction : Direction
}.

Record SearchCompaniesArgs : Type := {
  sc_filterGroups : list FilterGroup;
  sc_properties : option (list string);
  sc_limit : option number;
  sc_after : option string;
  sc_sorts : option (list Sort)
}.

(** The validated arguments as the JavaScript values the handlers see. *)

Definition optional {A : Type} (f : A -> value) (o : option A) : value :=
  match o with
  | Some x => f x
  | None => VUndefined
  end.

Definition strings (l : list string) : value := VArr (map VStr l).

Definition AssociationType_value (t : AssociationType) : value :=
  VObj [("associationCategory", VStr (associationCategory t));
        ("associationTypeId", VNum (associationTypeId t))].

Definition Association_value (a : Association) : value :=
  VObj [("to", VObj [("id", VStr (to_id a))]);
        ("types", VArr (map AssociationType_value (types a)))].

Definition Filter_value (f : Filter) : value :=
  VObj [("propertyName", VStr (propertyName f));
        ("operator", VStr (Operator_name (operator f)));
        ("value", filter_value f)].

Definition FilterGroup_value (g : FilterGroup) : value :=
  VObj [("filters", VArr (map Filter_value (filters g)))].

Definition Sort_value (s : Sort) : value :=
  VObj [("propertyName", VStr (sort_propertyName s));
        ("direction", VStr (Direction_name (direction s)))].

(** *** formatResponse (lines 15-29) *)

Definition formatResponse (data : value) : Envelope :=
  let text :=
    match data with
    | VStr s => s                                   (* typeof data === 'string' *)
    | VNull | VUndefined => "No data returned"
    | VArr _ | VObj _ => JSON_stringify_object data (* typeof data === 'object' *)
    | VBool _ | VNum _ => ToString data             (* String(data) *)
    end in
  {| content := [ {| type := "text"; text := text |} ] |}.

(** *** makeApiRequest (lines 31-61) *)

(** Truthiness of the access token: [undefined] and the empty string are
    falsy. *)
Definition truthy (apiKey : option string) : bool :=
  match apiKey with
  | Some (String _ _) => true
  | _ => false
  end.

(** The token inside a template literal. *)
Definition template (apiKey : option string) : string :=
  match apiKey with
  | Some s => s
  | None => "undefined"
  end.

(** [Object.entries(params).forEach(...)] over the query parameters. *)
Fixpoint appendParams (entries : obj) (queryParams : URLSearchParams)
  : M URLSearchParams :=
  match entries with
  | [] => ret queryParams
  | (key, v) :: rest =>
      match v with
      | VUndefined => appendParams rest queryParams
      | _ =>
          s <- toString_method v ;;
          appendParams rest (URLSearchParams_append queryParams key s)
      end
  end.

Definition query_suffix (queryParams : URLSearchParams) : string :=
  match URLSearchParams_toString queryParams with
  | EmptyString => EmptyString
  | qs => "?" ++ qs
  end.

Definition requestHeaders (apiKey : option string) (body : option obj)
  : list (string * string) :=
  let headers :=
    [("Accept", "application/json");
     ("Authorization", "Bearer " ++ template apiKey)] in
  match body with
  | Some _ => set "Content-Type" "application/json" headers
  | None => headers
  end.

Definition requestOptions (apiKey : option string) (method : string)
    (body : option obj) : RequestInit :=
  {| method := method;
     headers := requestHeaders apiKey body;
     body := match body with
             | Some b => Some (JSON_stringify_object (VObj b))
             | None => None
             end |}.

Variable net : Network.

Definition makeApiRequest (apiKey : option string) (endpoint : string)
    (params : obj) (method : string) (body : option obj) : M value :=
  if negb (truthy apiKey) then
    throw (Error "HUBSPOT_ACCESS_TOKEN environment variable is not set")
  else
    queryParams <- appendParams params [] ;;
    let url := "https://api.hubapi.com" ++ endpoint ++ query_suffix queryParams in
    response <- fetch net url (requestOptions apiKey method body) ;;
    if negb (ok response) then
      ret (VStr ("Error fetching data from HubSpot: Status "
                 ++ N_toString (status response)))
    else if (status response =? 204)%N then
      ret (VStr ("No data returned: Status " ++ N_toString (status response)))
    else Response_json response.

(** *** The two wrappers (lines 63-78) *)

Definition makeApiRequestWithErrorHandling (apiKey : option string)
    (endpoint : string) (params : obj) (method : string) (body : option obj)
  : M Envelope :=
  try_catch
    (data <- makeApiRequest apiKey endpoint params method body ;;
     ret (formatResponse data))
    (fun error =>
       ret (formatResponse (VStr ("Error performing request: " ++ message error)))).

Definition handleEndpoint (apiCall : M Envelope) : M Envelope :=
  try_catch apiCall (fun error => ret (formatResponse (VStr (message error)))).

(** *** getConfig (lines 80-84) *)

Definition getConfig (config_token env_token : option string) : option string :=
  match config_token with
  | Some t => Some t
  | None => env_token
  end.

(** *** The registered tools (lines 89-246) *)

Variable hubspotAccessToken : option string.

Definition add (a b : number) : M Envelope :=
  ret {| content := [ {| text := Number_toString (number_add a b); type := "text" |} ] |}.

Definition crm_create_company (params : CreateCompanyArgs) : M Envelope :=
  handleEndpoint
    (let endpoint := "/crm/v3/objects/companies" in
     makeApiRequestWithErrorHandling hubspotAccessToken endpoint [] "POST"
       (Some [("properties", VObj (cc_properties params));
              ("associations",
               optional (fun l => VArr (map Association_value l))
                 (cc_associations params))])).

Definition crm_update_company (params : UpdateCompanyArgs) : M Envelope :=
  handleEndpoint
    (let endpoint := "/crm/v3/objects/companies/" ++ uc_companyId params in
     makeApiRequestWithErrorHandling hubspotAccessToken endpoint [] "PATCH"
       (Some [("properties", VObj (uc_properties params))])).

Definition crm_get_company (params : GetCompanyArgs) : M Envelope :=
  handleEndpoint
    (let endpoint := "/crm/v3/objects/companies/" ++ gc_companyId params in
     makeApiRequestWithErrorHandling hubspotAccessToken endpoint
       [("properties",
         optional (fun l => VStr (String.concat "," l)) (gc_properties params));
        ("associations",
         optional (fun l => VStr (String.concat "," (map AssociationKind_name l)))
           (gc_associations params))]
       "GET" None).

Definition searchBody (params : SearchCompaniesArgs) : obj :=
  [("filterGroups", VArr (map FilterGroup_value (sc_filterGroups params)));
   ("properties", optional strings (sc_properties params));
   ("limit", optional VNum (sc_limit params));
   ("after", optional VStr (sc_after params));
   ("sorts", optional (fun l => VArr (map Sort_value l)) (sc_sorts params))].

Definition crm_search_companies (params : SearchCompaniesArgs) : M Envelope :=
  handleEndpoint
    (let endpoint := "/crm/v3/objects/companies/search" in
     makeApiRequestWithErrorHandling hubspotAccessToken endpoint [] "POST"
       (Some (searchBody params))).

(** *** The schema of [crm_search_companies] (lines 195-232) *)

Definition operatorSchema : Parser Operator :=
  z_enum (map (fun o => (Operator_name o, o)) operators).

Definition directionSchema : Parser Direction :=
  z_enum [("ASCENDING", ASCENDING); ("DESCENDING", DESCENDING)].

Definition filterSchema : Parser Filter :=
  z_object (fun p fs =>
    let? n := field "propertyName" z_string p fs in
    let? o := field "operator" operatorSchema p fs in
    let? v := field "value" z_any p fs in
    inr {| propertyName := n; operator := o; filter_value := v |}).

Definition filterGroupSchema : Parser FilterGroup :=
  z_object (fun p fs =>
    let? l := field "filters" (z_array filterSchema) p fs in
    inr {| filters := l |}).

Definition sortSchema : Parser Sort :=
  z_object (fun p fs =>
    let? n := field "propertyName" z_string p fs in
    let? d := field "direction" directionSchema p fs in
    inr {| sort_propertyName := n; direction := d |}).

Definition searchCompaniesSchema : Parser SearchCompaniesArgs :=
  z_object (fun p fs =>
    let? g := field "filterGroups" (z_array filterGroupSchema) p fs in
    let? pr := field "properties" (z_optional (z_array z_string)) p fs in
    let? l := field "limit" (z_optional (z_number_min_max 1 100)) p fs in
    let? a := field "after" (z_optional z_string) p fs in
    let? s := field "sorts" (z_optional (z_array sortSchema)) p fs in
    inr {| sc_filterGroups := g; sc_properties := pr; sc_limit := l;
           sc_after := a; sc_sorts := s |}).

(** *** Tool dispatch *)

Variable ZodError_message : ZodIssue -> string.

(** Modelled from the spec: the tool dispatch of the MCP framework
    ([server.tool] registers a handler; the framework that calls it is not
    part of the sources).  The argument schema is checked before the
    handler runs; a rejection is an exception like any other, and the
    outer wrapper formats its message. *)
Definition validate {A : Type} (schema : Parser A) (arguments : value) : M A :=
  match schema [] arguments with
  | inl issue =>
      throw {| exn_name := "ZodError"; message := ZodError_message issue |}
  | inr params => ret params
  end.

Definition callTool {A : Type} (schema : Parser A) (handler : A -> M Envelope)
    (arguments : value) : M Envelope :=
  handleEndpoint (params <- validate schema arguments ;; handler params).

(** One invocation of a registered tool with validated arguments. *)
Inductive ToolCall : Type :=
| call_add (a b : number)
| call_crm_create_company (params : CreateCompanyArgs)
| call_crm_update_company (params : UpdateCompanyArgs)
| call_crm_get_company (params : GetCompanyArgs)
| call_crm_search_companies (params : SearchCompaniesArgs).

Definition invoke (c : ToolCall) : M Envelope :=
  match c with
  | call_add a b => add a b
  | call_crm_create_company params => crm_create_company params
  | call_crm_update_company params => crm_update_company params
  | call_crm_get_company params => crm_get_company params
  | call_crm_search_companies params => crm_search_companies params
  end.

End Program.

End MyMCP.

(** ** Notions used to state the properties *)

Module Spec.
Import JS Zod MyMCP.

(** The Envelope carrying the text [s]. *)
Definition textEnvelope (s : string) : Envelope :=
  {| content := [ {| type := "text"; text := s |} ] |}.

(** The texts an Envelope carries. *)
Definition text_of (env : Envelope) : list string := map text (content env).

Section Notions.
Context {Num : JSNumber}.

(** The query built from [params]: the parameters, or the exception the
    loop throws. *)
Definition queryOf (params : obj) : exn + URLSearchParams :=
  fst (appendParams params [] []).

(** The request [makeApiRequest] hands to [fetch] once the query is built. *)
Definition apiRequest (apiKey : option string) (endpoint : string)
    (queryParams : URLSearchParams) (method : string) (body : option obj)
  : Request :=
  {| url := "https://api.hubapi.com" ++ endpoint ++ query_suffix queryParams;
     init := requestOptions apiKey method body |}.

(** What [makeApiRequest] makes of a received response. *)
Definition responseResult (r : Response) : exn + value :=
  if negb (ok r) then
    inr (VStr ("Error fetching data from HubSpot: Status " ++ N_toString (status r)))
  else if (status r =? 204)%N then
    inr (VStr ("No data returned: Status " ++ N_toString (status r)))
  else json_result r.

(** The entries of [params] whose value is not undefined, each with the
    string form of its value, in order. *)
Definition definedEntries (params : obj) : URLSearchParams :=
  flat_map
    (fun kv =>
       match snd kv with
       | VUndefined => []
       | v => [(fst kv, ToString v)]
       end) params.

(** [String(v)] succeeds: no object inside [v] owns a [toString]
    property. *)
Fixpoint convertible (v : value) : bool :=
  match v with
  | VObj fs =>
      match lookup "toString" fs with
      | Some _ => false
      | None => true
      end
  | VArr l => forallb convertible l
  | _ => true
  end.

(** [value.toString()] succeeds. *)
Definition has_string_form (v : value) : bool :=
  match v with
  | VUndefined | VNull => false
  | _ => convertible v
  end.

(** A query entry the loop gets past: its value is undefined, or has a
    string form. *)
Definition appendable (kv : string * value) : bool :=
  match snd kv with
  | VUndefined => true
  | v => has_string_form v
  end.

(** The query parameters [crm_get_company] is specified to send: one
    comma-joined value per argument that is present. *)
Definition getCompanyQuery (params : GetCompanyArgs) : URLSearchParams :=
  (match gc_properties params with
   | Some l => [("properties", String.concat "," l)]
   | None => []
   end ++
   match gc_associations params with
   | Some l => [("associations", String.concat "," (map AssociationKind_name l))]
   | None => []
   end)%list.

(** An argument object holds a filter whose operator is the string [op], at
    position [j] of group [i]. *)
Definition has_operator (arguments : value) (i j : nat) (op : string) : Prop :=
  exists fs groups gfs fl ffs,
    arguments = VObj fs /\
    get "filterGroups" fs = VArr groups /\
    nth_error groups i = Some (VObj gfs) /\
    get "filters" gfs = VArr fl /\
    nth_error fl j = Some (VObj ffs) /\
    get "operator" ffs = VStr op.

End Notions.

End Spec.

(** ** Concrete data for the examples *)

Module Examples.
Import JS Zod MyMCP Spec.

(** Integer-valued numbers: a carrier on which every operation of
    [JSNumber] is exact. *)
Definition ZNumber : JSNumber := {|
  number := Z;
  number_add := Z.add;
  number_ltb := Z.ltb;
  number_isFinite := fun _ => true;
  number_of_Z := fun z => z;
  Number_toString := fun z => NilZero.string_of_int (Z.to_int z)
|}.

#[local] Existing Instance ZNumber.

(** A network answering every request with the given status and body. *)
Definition answering (st : N) (b : exn + value) : Network :=
  fun _ => Resolved {| status := st; json_result := b |}.

Definition company : value :=
  VObj [("id", VStr "123"); ("archived", VBool false)].

Definition net200 : Network := answering 200 (inr company).
Definition net204 : Network :=
  answering 204 (inl (SyntaxError "Unexpected end of JSON input")).
Definition net404 : Network := answering 404 (inr VNull).
Definition offline : Network :=
  fun _ => Rejected (TypeError "fetch failed").

Definition get123 (properties : option (list string)) : GetCompanyArgs :=
  {| gc_companyId := "123"; gc_properties := properties; gc_associations := None |}.

Definition searchArguments (op : string) (limit : Z) : value :=
  VObj [("filterGroups",
         VArr [VObj [("filters",
                      VArr [VObj [("propertyName", VStr "name");
                                  ("operator", VStr op);
                                  ("value", VStr "acme")]])]]);
        ("limit", VNum limit)].

Definition searchParams : SearchCompaniesArgs :=
  {| sc_filterGroups :=
       [ {| filters := [ {| propertyName := "name"; operator := EQ;
                            filter_value := VStr "acme" |} ] |} ];
     sc_properties := None; sc_limit := Some 10%Z; sc_after := None;
     sc_sorts := None |}.

Definition mixed : value := VArr [VNum (Num := ZNumber) 1%Z; VUndefined].

Definition acme : obj := [("properties", VObj [("name", VStr "Acme")])].

Definition createArgs : CreateCompanyArgs :=
  {| cc_properties := [("name", VStr "Acme")]; cc_associations := None |}.

Definition createRequest : Request :=
  apiRequest (Some "token") "/crm/v3/objects/companies" [] "POST" (Some acme).

(** A rendering of validation issues for the examples. *)
Definition describe (i : ZodIssue) : string :=
  match code i with
  | invalid_type e r => "Expected " ++ e ++ ", received " ++ r
  | invalid_enum_value r _ => "Invalid enum value, received '" ++ r ++ "'"
  | too_small _ => "Number too small"
  | too_big _ => "Number too big"
  end.

End Examples.

(** ** The earlier revision of [getConfig] kept in [src/index.ts] *)

Module Revision1.
Import JS MyMCP.

(** [a || b]: the first operand when it is truthy, the second otherwise. *)
Definition or_else (a b : option string) : option string :=
  if truthy a then a else b.

Record Config : Type := {
  hubspotAccessToken : option string;
  telemetryEnabled : option string
}.

(** Lines 336-341: each setting is read from the configuration, else from
    the process environment; telemetry defaults to "true". *)
Definition getConfig (config_token env_token config_telemetry env_telemetry
                      : option string) : Config :=
  {| hubspotAccessToken := or_else config_token env_token;
     telemetryEnabled :=
       or_else (or_else config_telemetry env_telemetry) (Some "true") |}.

End Revision1.

(** ** Notions used to state the further properties *)

Module Requests.
Import JS Zod MyMCP Spec.

Section Requests.
Context {Num : JSNumber}.

(** The tools that talk to HubSpot: all but [add]. *)
Definition is_crm (c : ToolCall) : bool :=
  match c with
  | call_add _ _ => false
  | _ => true
  end.

(** The request a tool invocation hands to [fetch] when a token is set. *)
Definition toolRequest (token : string) (c : ToolCall) : list Request :=
  match c with
  | call_add _ _ => []
  | call_crm_create_company params =>
      [apiRequest (Some token) "/crm/v3/objects/companies" [] "POST"
         (Some [("properties", VObj (cc_properties params));
                ("associations",
                 optional (fun l => VArr (map Association_value l))
                   (cc_associations params))])]
  | call_crm_update_company params =>
      [apiRequest (Some token)
         ("/crm/v3/objects/companies/" ++ uc_companyId params) [] "PATCH"
         (Some [("properties", VObj (uc_properties params))])]
  | call_crm_get_company params =>
      [apiRequest (Some token)
         ("/crm/v3/objects/companies/" ++ gc_companyId params)
         (getCompanyQuery params) "GET" None]
  | call_crm_search_companies params =>
      [apiRequest (Some token) "/crm/v3/objects/companies/search" [] "POST"
         (Some (searchBody params))]
  end.

(** What the two wrappers make of the network's answer to a request. *)
Definition outcomeEnvelope (o : FetchOutcome) : Envelope :=
  match o with
  | Rejected e => textEnvelope ("Error performing request: " ++ message e)
  | Resolved r =>
      match responseResult r with
      | inl e => textEnvelope ("Error performing request: " ++ message e)
      | inr v => formatResponse v
      end
  end.

(** A property that is set: the one-element object, or nothing when the
    value is undefined. *)
Definition present (k : string) (v : value) : obj :=
  match v with
  | VUndefined => []
  | _ => [(k, v)]
  end.

(** A limit that the schema admits: absent, or neither below 1 nor above
    100. *)
Definition limit_in_range (limit : option number) : Prop :=
  match limit with
  | Some n =>
      number_ltb n (number_of_Z 1) = false
      /\ number_ltb (number_of_Z 100) n = false
  | None => True
  end.

End Requests.

(** Decoding of a form-urlencoded component: [+] is a space and [%XY] the
    byte with hexadecimal digits [X] and [Y]. *)
Definition unhex (c : ascii) : option N :=
  let n := N_of_ascii c in
  if ((48 <=? n) && (n <=? 57))%N then Some (n - 48)%N
  else if ((65 <=? n) && (n <=? 70))%N then Some (n - 55)%N
  else None.

Fixpoint urldecode (s : string) : string :=
  match s with
  | EmptyString => EmptyString
  | String c t =>
      if (N_of_ascii c =? 43)%N then String (ascii_of_N 32) (urldecode t)
      else if (N_of_ascii c =? 37)%N then
        match t with
        | String h (String l r) =>
            match unhex h, unhex l with
            | Some a, Some b => String (ascii_of_N (16 * a + b)) (urldecode r)
            | _, _ => String c (urldecode t)
            end
        | _ => String c (urldecode t)
        end
      else String c (urldecode t)
  end.

(** The characters a form-urlencoded component is made of. *)
Definition urlsafe (c : ascii) : bool :=
  let n := N_of_ascii c in
  (is_alnum n || (n =? 42) || (n =? 45) || (n =? 46) || (n =? 95)
   || (n =? 43) || (n =? 37))%N.

Fixpoint all_chars (f : ascii -> bool) (s : string) : bool :=
  match s with
  | EmptyString => true
  | String c t => f c && all_chars f t
  end.

(** Parsing of a form-urlencoded query string: the sequences between [&],
    each split at its first [=], both sides decoded; empty sequences are
    skipped. *)
Fixpoint split_on (sep : ascii) (s : string) : list string :=
  match s with
  | EmptyString => [EmptyString]
  | String c t =>
      if Ascii.eqb c sep then EmptyString :: split_on sep t
      else
        match split_on sep t with
        | h :: r => String c h :: r
        | [] => [char1 c]
        end
  end.

Fixpoint split_first (sep : ascii) (s : string) : string * option string :=
  match s with
  | EmptyString => (EmptyString, None)
  | String c t =>
      if Ascii.eqb c sep then (EmptyString, Some t)
      else (String c (fst (split_first sep t)), snd (split_first sep t))
  end.

Definition nonempty (s : string) : bool :=
  match s with
  | EmptyString => false
  | String _ _ => true
  end.

Definition parse_pair (s : string) : string * string :=
  (urldecode (fst (split_first "=" s)),
   match snd (split_first "=" s) with
   | Some v => urldecode v
   | None => EmptyString
   end).

Definition parseQuery (s : string) : URLSearchParams :=
  map parse_pair (filter nonempty (split_on "&" s)).

Definition noamp (s : string) : bool :=
  all_chars (fun c => negb (Ascii.eqb c "&")) s.

End Requests.

(** ** The schema of [crm_get_company] (lines 176-180) *)

Module Schemas.
Import JS Zod MyMCP.

Section Schemas.
Context {Num : JSNumber}.

Definition associationKindSchema : Parser AssociationKind :=
  z_enum [("contacts", contacts); ("deals", deals); ("tickets", tickets)].

Definition getCompanySchema : Parser GetCompanyArgs :=
  z_object (fun p fs =>
    let? i := field "companyId" z_string p fs in
    let? pr := field "properties" (z_optional (z_array z_string)) p fs in
    let? a := field "associations"
                (z_optional (z_array associationKindSchema)) p fs in
    inr {| gc_companyId := i; gc_properties := pr; gc_associations := a |}).

(** Validated arguments as the argument object a client sends. *)
Definition GetCompanyArgs_value (a : GetCompanyArgs) : value :=
  VObj [("companyId", VStr (gc_companyId a));
        ("properties", optional strings (gc_properties a));
        ("associations",
         optional (fun l => VArr (map (fun k => VStr (AssociationKind_name k)) l))
           (gc_associations a))].

End Schemas.

End Schemas.

(** ** Further concrete data *)

Module Cases.
Import JS Zod MyMCP Spec Examples Requests.

#[local] Existing Instance ZNumber.

Definition updateArgs : UpdateCompanyArgs :=
  {| uc_companyId := "123"; uc_properties := [("name", VStr "Acme")] |}.

Definition getCall : ToolCall :=
  call_crm_get_company (get123 (Some ["name"; "domain"])).

Definition getRequest : Request :=
  apiRequest (Some "token") "/crm/v3/objects/companies/123"
    [("properties", "name,domain")] "GET" None.

(** A network whose 200 answer has a body that is not JSON. *)
Definition net200_html : Network :=
  answering 200 (inl (SyntaxError "Unexpected token '<'"))%string.

Definition raising : M Envelope :=
  throw (Error "boom").

End Cases.

(** ** Properties *)

Import JS Zod MyMCP Spec.

Section Properties.
Context {Num : JSNumber}.
Variable net : Network.

(** *** The computation monad *)

Lemma try_catch_returns {A : Type} (m : M A) (h : exn -> M A) log a log' :
  m log = (inr a, log') -> try_catch m h log = (inr a, log').
Proof. intros H. unfold try_catch. rewrite H. reflexivity. Qed.

Lemma try_catch_throws {A : Type} (m : M A) (h : exn -> M A) log e log' :
  m log = (inl e, log') -> try_catch m h log = h e log'.
Proof. intros H. unfold try_catch. rewrite H. reflexivity. Qed.

Lemma bind_returns {A B : Type} (m : M A) (k : A -> M B) log a log' :
  m log = (inr a, log') -> bind m k log = k a log'.
Proof. intros H. unfold bind. rewrite H. reflexivity. Qed.

Lemma bind_throws {A B : Type} (m : M A) (k : A -> M B) log e log' :
  m log = (inl e, log') -> bind m k log = (inl e, log').
Proof. intros H. unfold bind. rewrite H. reflexivity. Qed.

(** *** formatResponse *)

Lemma formatResponse_envelope (data : value) :
  exists s, formatResponse data = textEnvelope s.
Proof. unfold formatResponse, textEnvelope. eexists. reflexivity. Qed.

Lemma stringify_structured (data : value) :
  typeof data = "object" -> data <> VNull ->
  JSON_stringify data = Some (JSON_stringify_object data).
Proof.
  intros Ht Hn. unfold JSON_stringify, JSON_stringify_object.
  destruct data; try discriminate Ht; try congruence; reflexivity.
Qed.

(** *** The query loop *)

Lemma appendParams_run (entries : obj) :
  forall (q : URLSearchParams) (log : list Request),
    appendParams entries q log = (fst (appendParams entries q []), log).
Proof.
  induction entries as [|[k v] rest IH]; intros q log.
  - reflexivity.
  - destruct v; cbn [appendParams]; try apply IH;
      unfold bind, toString_method;
      (destruct (toString_result _); [reflexivity | apply IH]).
Qed.

(** *** makeApiRequest, step by step *)

Lemma makeApiRequest_run apiKey endpoint params method body log :
  makeApiRequest net apiKey endpoint params method body log =
  if truthy apiKey then
    match queryOf params with
    | inl e => (inl e, log)
    | inr q =>
        let req := apiRequest apiKey endpoint q method body in
        (match net req with
         | Rejected e => inl e
         | Resolved r => responseResult r
         end, (log ++ [req])%list)
    end
  else (inl (Error "HUBSPOT_ACCESS_TOKEN environment variable is not set"), log).
Proof.
  unfold makeApiRequest. destruct (truthy apiKey); cbn [negb]; [|reflexivity].
  unfold bind at 1. rewrite appendParams_run. fold (queryOf params).
  destruct (queryOf params) as [e|q]; [reflexivity|].
  unfold bind, fetch, apiRequest, responseResult. cbn zeta.
  destruct (net _) as [e|r]; [reflexivity|].
  destruct (negb (ok r)); [reflexivity|].
  destruct (status r =? 204)%N; reflexivity.
Qed.

Lemma wrapper_run apiKey endpoint params method body log :
  makeApiRequestWithErrorHandling net apiKey endpoint params method body log =
  match makeApiRequest net apiKey endpoint params method body log with
  | (inl e, log') =>
      (inr (textEnvelope ("Error performing request: " ++ message e)), log')
  | (inr v, log') => (inr (formatResponse v), log')
  end.
Proof.
  unfold makeApiRequestWithErrorHandling, try_catch, bind, ret.
  destruct (makeApiRequest _ _ _ _ _ _ _) as [[e|v] log']; reflexivity.
Qed.

Lemma wrapper_returns apiKey endpoint params method body log :
  exists s log',
    makeApiRequestWithErrorHandling net apiKey endpoint params method body log
    = (inr (textEnvelope s), log').
Proof.
  rewrite wrapper_run.
  destruct (makeApiRequest _ _ _ _ _ _ _) as [[e|v] log'].
  - eauto.
  - destruct (formatResponse_envelope v) as [s Hs]. rewrite Hs. eauto.
Qed.

Lemma handleEndpoint_returns (apiCall : M Envelope) log env log' :
  apiCall log = (inr env, log') -> handleEndpoint apiCall log = (inr env, log').
Proof. apply try_catch_returns. Qed.

Lemma handled_wrapper apiKey endpoint params method body log :
  handleEndpoint
    (makeApiRequestWithErrorHandling net apiKey endpoint params method body) log
  = makeApiRequestWithErrorHandling net apiKey endpoint params method body log.
Proof.
  destruct (wrapper_returns apiKey endpoint params method body log)
    as (s & log' & H).
  rewrite H. apply handleEndpoint_returns. exact H.
Qed.

Lemma makeApiRequest_log apiKey endpoint params meth payload log :
  snd (makeApiRequest net apiKey endpoint params meth payload log) =
  if truthy apiKey then
    match queryOf params with
    | inl _ => log
    | inr q => (log ++ [apiRequest apiKey endpoint q meth payload])%list
    end
  else log.
Proof.
  rewrite makeApiRequest_run.
  destruct (truthy apiKey); [|reflexivity].
  destruct (queryOf params); reflexivity.
Qed.

Lemma wrapper_log apiKey endpoint params meth payload log :
  snd (makeApiRequestWithErrorHandling net apiKey endpoint params meth payload log)
  = snd (makeApiRequest net apiKey endpoint params meth payload log).
Proof.
  rewrite wrapper_run.
  destruct (makeApiRequest _ _ _ _ _ _ _) as [[e|v] log']; reflexivity.
Qed.

(** *** String forms of values *)

Lemma value_is_undefined (v : value) : {v = VUndefined} + {v <> VUndefined}.
Proof. destruct v; (left; reflexivity) || (right; discriminate). Qed.

Lemma value_induction (P : value -> Prop) :
  P VUndefined -> P VNull -> (forall b, P (VBool b)) ->
  (forall n, P (VNum n)) -> (forall s, P (VStr s)) ->
  (forall l, Forall P l -> P (VArr l)) -> (forall fs, P (VObj fs)) ->
  forall v, P v.
Proof.
  intros Hu Hn Hb Hnum Hs Harr Hobj. fix IH 1.
  intros [| |b|n|s|l|fs];
    [exact Hu | exact Hn | apply Hb | apply Hnum | apply Hs | | apply Hobj].
  apply Harr. induction l as [|x l IHl]; constructor; [apply IH | exact IHl].
Qed.

Lemma ToString_array (l : list value) :
  ToString (VArr l)
  = String.concat ","
      (map (fun x => match x with
                     | VUndefined | VNull => EmptyString
                     | _ => ToString x
                     end) l).
Proof.
  reflexivity.
Qed.

Lemma traverse_map {A B : Type} (f : A -> exn + B) (g : A -> B) (l : list A) :
  Forall (fun x => f x = inr (g x)) l -> traverse f l = inr (map g l).
Proof.
  induction 1 as [|x l Hx _ IH]; cbn [traverse map]; [reflexivity|].
  rewrite Hx, IH. reflexivity.
Qed.

Lemma convertible_ToString (v : value) :
  convertible v = true -> ToPrimitive_string v = inr (ToString v).
Proof.
  induction v as [| |b|n|s|l IH|fs] using value_induction; intros H;
    try reflexivity.
  - cbn [ToPrimitive_string]. rewrite ToString_array.
    cbn [convertible] in H. rewrite forallb_forall in H.
    rewrite (traverse_map _
               (fun x => match x with
                         | VUndefined | VNull => EmptyString
                         | _ => ToString x
                         end)); [reflexivity|].
    rewrite Forall_forall in *. intros x Hx.
    specialize (IH x Hx (H x Hx)). destruct x; try reflexivity; exact IH.
  - cbn [convertible ToPrimitive_string ToString] in *.
    destruct (lookup "toString" fs); [discriminate H | reflexivity].
Qed.

Lemma not_convertible (v : value) :
  convertible v = false -> exists msg, ToPrimitive_string v = inl (TypeError msg).
Proof.
  induction v as [| |b|n|s|l IH|fs] using value_induction; intros H;
    try discriminate H.
  - cbn [ToPrimitive_string]. cbn [convertible] in H.
    induction IH as [|x l Hx _ IHl]; [discriminate H|].
    cbn [forallb] in H. cbn [traverse].
    destruct (convertible x) eqn:Ex.
    + cbn [andb] in H. destruct (IHl H) as (msg & E).
      assert (Hs : exists t,
                 match x with
                 | VUndefined | VNull => inr EmptyString
                 | _ => ToPrimitive_string x
                 end = inr t).
      { pose proof (convertible_ToString x Ex) as Hc.
        destruct x; eauto. }
      destruct Hs as (t & ->).
      destruct (traverse _ l) as [e|ss]; [|discriminate E].
      exists msg. exact E.
    + destruct (Hx eq_refl) as (msg & E).
      assert (Hf : match x with
                   | VUndefined | VNull => inr EmptyString
                   | _ => ToPrimitive_string x
                   end = inl (TypeError msg))
        by (destruct x; try discriminate Ex; exact E).
      rewrite Hf. eauto.
  - cbn [convertible ToPrimitive_string] in *.
    destruct (lookup "toString" fs); [eauto | discriminate H].
Qed.

Lemma string_form (v : value) :
  has_string_form v = true -> toString_result v = inr (ToString v).
Proof.
  destruct v; cbn [has_string_form]; intros H; try discriminate H;
    try reflexivity.
  - apply (convertible_ToString (VArr elems) H).
  - cbn [convertible toString_result ToString] in *.
    destruct (lookup "toString" fields); [discriminate H | reflexivity].
Qed.

Lemma no_string_form (v : value) :
  has_string_form v = false ->
  exists msg, toString_result v = inl (TypeError msg).
Proof.
  destruct v; cbn [has_string_form]; intros H; try discriminate H;
    cbn [toString_result]; eauto.
  - apply (not_convertible (VArr elems) H).
  - cbn [convertible] in H.
    destruct (lookup "toString" fields); [eauto | discriminate H].
Qed.

(** *** The query loop, entry by entry *)

Lemma appendParams_skip (k : string) (rest : obj) (q : URLSearchParams) :
  fst (appendParams ((k, VUndefined) :: rest) q [])
  = fst (appendParams rest q []).
Proof. reflexivity. Qed.

Lemma appendParams_step (k : string) (v : value) (rest : obj)
    (q : URLSearchParams) :
  v <> VUndefined ->
  fst (appendParams ((k, v) :: rest) q [])
  = match toString_result v with
    | inl e => inl e
    | inr s => fst (appendParams rest (q ++ [(k, s)])%list [])
    end.
Proof.
  intros Hv. destruct v; try congruence; cbn [appendParams];
    unfold bind, toString_method, URLSearchParams_append;
    destruct (toString_result _); reflexivity.
Qed.

Lemma definedEntries_cons (k : string) (v : value) (rest : obj) :
  definedEntries ((k, v) :: rest)
  = (match v with
     | VUndefined => []
     | _ => [(k, ToString v)]
     end ++ definedEntries rest)%list.
Proof. destruct v; reflexivity. Qed.

Lemma appendParams_appendable (entries : obj) :
  forallb appendable entries = true ->
  forall q : URLSearchParams,
    fst (appendParams entries q []) = inr (q ++ definedEntries entries)%list.
Proof.
  induction entries as [|[k v] rest IH]; intros H q.
  - cbn. rewrite app_nil_r. reflexivity.
  - cbn [forallb] in H. apply andb_prop in H. destruct H as [Hv Hrest].
    rewrite definedEntries_cons.
    destruct (value_is_undefined v) as [->|Hne].
    + rewrite appendParams_skip. apply IH, Hrest.
    + rewrite appendParams_step by exact Hne.
      assert (Hf : has_string_form v = true)
        by (destruct v; try congruence; exact Hv).
      rewrite (string_form v Hf), (IH Hrest), <- app_assoc.
      destruct v; try congruence; reflexivity.
Qed.

Lemma appendParams_stops (pre : obj) (k : string) (v : value) (post : obj)
    (e : exn) :
  forallb appendable pre = true ->
  toString_result v = inl e -> v <> VUndefined ->
  forall q : URLSearchParams,
    fst (appendParams (pre ++ (k, v) :: post)%list q []) = inl e.
Proof.
  intros Hpre He Hne. induction pre as [|[k0 v0] pre IH]; intros q.
  - cbn [app]. rewrite appendParams_step by exact Hne. rewrite He. reflexivity.
  - cbn [forallb] in Hpre. apply andb_prop in Hpre. destruct Hpre as [Hv Hrest].
    cbn [app]. destruct (value_is_undefined v0) as [->|Hne0].
    + rewrite appendParams_skip. apply IH, Hrest.
    + rewrite appendParams_step by exact Hne0.
      assert (Hf : has_string_form v0 = true)
        by (destruct v0; try congruence; exact Hv).
      rewrite (string_form v0 Hf). apply IH, Hrest.
Qed.

Lemma appendParams_fails (entries : obj) :
  forallb appendable entries = false ->
  forall q : URLSearchParams,
    exists msg, fst (appendParams entries q []) = inl (TypeError msg).
Proof.
  induction entries as [|[k v] rest IH]; intros H q; [discriminate H|].
  cbn [forallb] in H.
  destruct (value_is_undefined v) as [->|Hne].
  - rewrite appendParams_skip. apply IH. exact H.
  - rewrite appendParams_step by exact Hne.
    destruct (has_string_form v) eqn:Hf.
    + rewrite (string_form v Hf). apply IH.
      assert (Ha : appendable (k, v) = true)
        by (destruct v; try congruence; exact Hf).
      rewrite Ha in H. exact H.
    + destruct (no_string_form v Hf) as (msg & E). rewrite E. eauto.
Qed.

Lemma getCompany_query (params : GetCompanyArgs) :
  queryOf
    [("properties",
      optional (fun l => VStr (String.concat "," l)) (gc_properties params));
     ("associations",
      optional (fun l => VStr (String.concat "," (map AssociationKind_name l)))
        (gc_associations params))]
  = inr (getCompanyQuery params).
Proof.
  unfold getCompanyQuery.
  destruct (gc_properties params), (gc_associations params); reflexivity.
Qed.

Lemma getConfig_unset : getConfig None None = None.
Proof. reflexivity. Qed.

Lemma getConfig_prefers_config (t : string) (env_token : option string) :
  getConfig (Some t) env_token = Some t.
Proof. reflexivity. Qed.

Ltac through_wrappers :=
  cbn zeta; rewrite handled_wrapper;
  match goal with
  | |- context [makeApiRequestWithErrorHandling _ ?k ?e ?p ?m ?b ?l] =>
      let s := fresh "s" in
      let H := fresh "H" in
      destruct (wrapper_returns k e p m b l) as (s & ? & H);
      rewrite H; exists s; reflexivity
  end.

(** C1. Every invocation of a registered tool returns: it never raises,
    whatever the token and whatever the network does, and its result is an
    Envelope holding exactly one element, of type "text". *)
Theorem tool_invocation_returns_envelope
    (hubspotAccessToken : option string) (c : ToolCall) (log : list Request) :
  exists s : string,
    fst (invoke net hubspotAccessToken c log)
    = inr {| content := [ {| type := "text"; text := s |} ] |}.
Proof.
  destruct c as [a b|params|params|params|params]; cbn [invoke].
  - eexists. reflexivity.
  - unfold crm_create_company. through_wrappers.
  - unfold crm_update_company. through_wrappers.
  - unfold crm_get_company. through_wrappers.
  - unfold crm_search_companies. through_wrappers.
Qed.

(** C2. Once a response is received, [makeApiRequest] returns without
    raising: the text "Error fetching data from HubSpot: Status <code>" for
    a status outside 200-299 (so "... Status 404" for 404), the text
    "No data returned: Status 204" for 204, and the parsed JSON value of
    the body for every other success status whose body parses. *)
Theorem makeApiRequest_on_response
    (apiKey : option string) (endpoint : string) (params : obj)
    (meth : string) (payload : option obj) (log : list Request)
    (q : URLSearchParams) (r : Response) :
  truthy apiKey = true ->
  queryOf params = inr q ->
  net (apiRequest apiKey endpoint q meth payload) = Resolved r ->
  let result := fst (makeApiRequest net apiKey endpoint params meth payload log) in
  ((status r < 200 \/ 299 < status r)%N ->
   result = inr (VStr ("Error fetching data from HubSpot: Status "
                       ++ N_toString (status r))))
  /\ (status r = 404%N ->
      result = inr (VStr "Error fetching data from HubSpot: Status 404"))
  /\ (status r = 204%N -> result = inr (VStr "No data returned: Status 204"))
  /\ (forall v : value,
        (200 <= status r <= 299)%N -> status r <> 204%N ->
        json_result r = inr v -> result = inr v).
Proof.
  intros Hkey Hq Hnet result. subst result.
  rewrite makeApiRequest_run, Hkey, Hq. cbn zeta. rewrite Hnet. cbn [fst].
  unfold responseResult, ok. repeat split.
  - intros Hout.
    assert (E : ((200 <=? status r) && (status r <=? 299))%N = false).
    { apply andb_false_iff. destruct Hout as [H|H];
        [left; apply N.leb_gt | right; apply N.leb_gt]; exact H. }
    rewrite E. reflexivity.
  - intros E. rewrite E. reflexivity.
  - intros E. rewrite E. reflexivity.
  - intros v [Hlo Hhi] Hne Hv.
    apply N.leb_le in Hlo. apply N.leb_le in Hhi. rewrite Hlo, Hhi.
    apply N.eqb_neq in Hne. rewrite Hne. cbn. exact Hv.
Qed.

(** C3. [formatResponse] is total and always yields an Envelope; its text
    is the input itself for a string, "No data returned" for null and
    undefined, the JSON serialization for an object or an array, and the
    string coercion for every other type. *)
Theorem formatResponse_cases (data : value) :
  (exists s, formatResponse data = textEnvelope s)
  /\ (forall s, data = VStr s -> formatResponse data = textEnvelope s)
  /\ (data = VNull \/ data = VUndefined ->
      formatResponse data = textEnvelope "No data returned")
  /\ (typeof data = "object" -> data <> VNull ->
      exists s, JSON_stringify data = Some s
                /\ formatResponse data = textEnvelope s)
  /\ (typeof data <> "string" -> typeof data <> "object" ->
      data <> VUndefined ->
      formatResponse data = textEnvelope (ToString data)).
Proof.
  split; [apply formatResponse_envelope|]. repeat split.
  - intros s ->. reflexivity.
  - intros [->| ->]; reflexivity.
  - intros Ht Hn. exists (JSON_stringify_object data). split.
    + apply stringify_structured; assumption.
    + destruct data; try discriminate Ht; try congruence; reflexivity.
  - intros Hs Ho Hu.
    destruct data; cbn [typeof] in Hs, Ho; try congruence; reflexivity.
Qed.

(** C4. With an empty or absent token [makeApiRequest] raises before any
    HTTP request is issued; [crm_create_company] then issues no request
    either and returns an Envelope whose text names the missing token. *)
Theorem missing_token_fails_fast
    (apiKey : option string) (endpoint : string) (params : obj)
    (meth : string) (payload : option obj) (log : list Request)
    (args : CreateCompanyArgs) :
  apiKey = None \/ apiKey = Some EmptyString ->
  makeApiRequest net apiKey endpoint params meth payload log
  = (inl (Error "HUBSPOT_ACCESS_TOKEN environment variable is not set"), log)
  /\ crm_create_company net apiKey args log
     = (inr (textEnvelope
          "Error performing request: HUBSPOT_ACCESS_TOKEN environment variable is not set"),
        log).
Proof.
  intros Hkey.
  assert (Hf : truthy apiKey = false) by (destruct Hkey; subst; reflexivity).
  split.
  - rewrite makeApiRequest_run, Hf. reflexivity.
  - unfold crm_create_company. cbn zeta.
    rewrite handled_wrapper, wrapper_run, makeApiRequest_run, Hf. reflexivity.
Qed.

(** C7, as amended. [makeApiRequestWithErrorHandling] never raises: when
    [makeApiRequest] raises, it returns the Envelope whose text is
    "Error performing request: " followed by the exception's message; when
    [makeApiRequest] returns, it returns [formatResponse] of that result. *)
Theorem wrapper_formats_outcome
    (apiKey : option string) (endpoint : string) (params : obj)
    (meth : string) (payload : option obj) (log : list Request) :
  (forall e log',
     makeApiRequest net apiKey endpoint params meth payload log = (inl e, log') ->
     makeApiRequestWithErrorHandling net apiKey endpoint params meth payload log
     = (inr (formatResponse (VStr ("Error performing request: " ++ message e))),
        log')
     /\ text_of (formatResponse (VStr ("Error performing request: " ++ message e)))
        = ["Error performing request: " ++ message e])
  /\ (forall v log',
        makeApiRequest net apiKey endpoint params meth payload log = (inr v, log') ->
        makeApiRequestWithErrorHandling net apiKey endpoint params meth payload log
        = (inr (formatResponse v), log'))
  /\ (exists env,
        fst (makeApiRequestWithErrorHandling net apiKey endpoint params meth
               payload log) = inr env).
Proof.
  split; [|split].
  - intros e log' H. split; [|reflexivity].
    rewrite wrapper_run, H. reflexivity.
  - intros v log' H. rewrite wrapper_run, H. reflexivity.
  - destruct (wrapper_returns apiKey endpoint params meth payload log)
      as (s & log' & H).
    rewrite H. eexists. reflexivity.
Qed.

(** C10. [handleEndpoint] is the identity on a call that does not raise;
    so the Envelope of [makeApiRequestWithErrorHandling] passes through it
    unchanged, and the request log with it. *)
Theorem handleEndpoint_identity
    (apiCall : M Envelope) (log log' : list Request) (env : Envelope)
    (apiKey : option string) (endpoint : string) (params : obj)
    (meth : string) (payload : option obj) :
  (apiCall log = (inr env, log') ->
   handleEndpoint apiCall log = (inr env, log'))
  /\ handleEndpoint
       (makeApiRequestWithErrorHandling net apiKey endpoint params meth payload)
       log
     = makeApiRequestWithErrorHandling net apiKey endpoint params meth payload log.
Proof.
  split.
  - apply handleEndpoint_returns.
  - apply handled_wrapper.
Qed.

(** C5, as amended. [crm_get_company] issues one GET to the single-company
    endpoint, with no body; each argument that is present is comma-joined
    into one query value (company "123" with properties name and domain
    gives /crm/v3/objects/companies/123?properties=name%2Cdomain); an
    absent argument omits its parameter, and an empty array sends the
    parameter with an empty value. *)
Theorem get_company_request
    (token : string) (params : GetCompanyArgs) (log : list Request) :
  token <> EmptyString ->
  snd (crm_get_company net (Some token) params log)
  = app log
     [ {| url := "https://api.hubapi.com/crm/v3/objects/companies/"
                 ++ gc_companyId params ++ query_suffix (getCompanyQuery params);
          init := {| method := "GET";
                     headers := [("Accept", "application/json");
                                 ("Authorization", "Bearer " ++ token)];
                     body := None |} |} ]
  /\ query_suffix
       (getCompanyQuery {| gc_companyId := "123";
                           gc_properties := Some ["name"; "domain"];
                           gc_associations := None |})
     = "?properties=name%2Cdomain"
  /\ (gc_properties params = None ->
      lookup "properties" (getCompanyQuery params) = None)
  /\ (gc_properties params = Some [] ->
      lookup "properties" (getCompanyQuery params) = Some EmptyString)
  /\ (gc_associations params = None ->
      lookup "associations" (getCompanyQuery params) = None)
  /\ (gc_associations params = Some [] ->
      lookup "associations" (getCompanyQuery params) = Some EmptyString).
Proof.
  intros Hk.
  assert (Ht : truthy (Some token) = true)
    by (destruct token; [congruence | reflexivity]).
  split; [|split; [reflexivity|]].
  - unfold crm_get_company. cbn zeta.
    rewrite handled_wrapper, wrapper_log, makeApiRequest_log, Ht, getCompany_query.
    reflexivity.
  - unfold getCompanyQuery. repeat split.
    + intros ->. destruct (gc_associations params); reflexivity.
    + intros ->. reflexivity.
    + intros ->. destruct (gc_properties params); reflexivity.
    + intros ->. destruct (gc_properties params); reflexivity.
Qed.

(** C6, as amended.  For a query mapping whose values that are not
    undefined all have a string form, [makeApiRequest] builds the query
    string by appending each entry whose value is not undefined, with the
    string form of that value, in insertion order, and omits exactly the
    entries whose value is undefined; every string, number and boolean has
    a string form.  A null value has none: [value.toString()] raises a
    TypeError on it before any request is issued. *)
Theorem query_built_from_defined_entries
    (apiKey : option string) (endpoint : string) (params : obj)
    (meth : string) (payload : option obj) (log : list Request) :
  forallb appendable params = true ->
  truthy apiKey = true ->
  queryOf params = inr (definedEntries params)
  /\ snd (makeApiRequest net apiKey endpoint params meth payload log)
     = app log
         [ {| url := "https://api.hubapi.com" ++ endpoint
                     ++ query_suffix (definedEntries params);
              init := requestOptions apiKey meth payload |} ]
  /\ (forall k s,
        In (k, s) (definedEntries params)
        <-> exists v, In (k, v) params /\ v <> VUndefined /\ s = ToString v)
  /\ (forall a b : obj,
        params = app a b ->
        definedEntries params = app (definedEntries a) (definedEntries b))
  /\ (forall k s n b,
        appendable (k, VStr s) = true /\ appendable (k, VNum n) = true
        /\ appendable (k, VBool b) = true /\ appendable (k, VNull) = false)
  /\ (forall k post,
        makeApiRequest net apiKey endpoint (app params ((k, VNull) :: post))
          meth payload log
        = (inl (TypeError "Cannot read properties of null (reading 'toString')"),
           log)).
Proof.
  intros Hp Hk.
  assert (Hq : queryOf params = inr (definedEntries params)).
  { unfold queryOf. rewrite (appendParams_appendable params Hp). reflexivity. }
  split; [exact Hq|]. split; [|split; [|split; [|split]]].
  - rewrite makeApiRequest_log, Hk, Hq. reflexivity.
  - intros k s. unfold definedEntries. rewrite in_flat_map. split.
    + intros ([k' v] & Hin & Hf). cbn [fst snd] in Hf.
      exists v. destruct v; cbn in Hf; try contradiction;
        destruct Hf as [Hf|[]]; injection Hf as <- <-;
        (split; [exact Hin | split; [discriminate | reflexivity]]).
    + intros (v & Hin & Hne & ->). exists (k, v). split; [exact Hin|].
      cbn [fst snd]. destruct v; try congruence; left; reflexivity.
  - intros a b ->. unfold definedEntries. apply flat_map_app.
  - intros k s n b. repeat split.
  - intros k post. rewrite makeApiRequest_run, Hk. unfold queryOf.
    rewrite (appendParams_stops params k VNull post _ Hp eq_refl);
      [reflexivity | discriminate].
Qed.

(** C9. Every request [makeApiRequest] issues carries Accept:
    application/json and Authorization: Bearer <token>; it carries
    Content-Type: application/json exactly when a body was passed, and its
    payload is then the JSON serialization of that body, and absent
    otherwise. *)
Theorem request_headers_and_body
    (apiKey : option string) (endpoint : string) (params : obj)
    (meth : string) (payload : option obj) (log issued : list Request)
    (req : Request) :
  snd (makeApiRequest net apiKey endpoint params meth payload log)
  = (log ++ issued)%list ->
  In req issued ->
  lookup "Accept" (headers (init req)) = Some "application/json"
  /\ (exists token,
        apiKey = Some token
        /\ lookup "Authorization" (headers (init req)) = Some ("Bearer " ++ token))
  /\ lookup "Content-Type" (headers (init req))
     = match payload with
       | Some _ => Some "application/json"
       | None => None
       end
  /\ body (init req)
     = match payload with
       | Some b => JSON_stringify (VObj b)
       | None => None
       end.
Proof.
  intros Hlog Hin. rewrite makeApiRequest_log in Hlog.
  assert (Hnone : forall l : list Request, log = (log ++ l)%list -> l = []).
  { intros l E. rewrite <- (app_nil_r log) in E at 1.
    apply app_inv_head in E. congruence. }
  destruct (truthy apiKey) eqn:Hk;
    [|apply Hnone in Hlog; subst issued; contradiction].
  destruct (queryOf params) as [e|q];
    [apply Hnone in Hlog; subst issued; contradiction|].
  apply app_inv_head in Hlog. subst issued.
  destruct Hin as [<-|[]].
  destruct apiKey as [[|c t]|]; try discriminate Hk.
  unfold apiRequest, requestOptions, requestHeaders. cbn [init headers body].
  destruct payload as [b|]; repeat split; try reflexivity;
    exists (String c t); split; reflexivity.
Qed.

(** *** Validation of the search arguments *)

Lemma andThen_inr {A B : Type} (r : ZodIssue + A) (k : A -> ZodIssue + B) b :
  andThen r k = inr b -> exists a, r = inr a /\ k a = inr b.
Proof. destruct r as [i|a]; cbn; [discriminate | eauto]. Qed.

Lemma lookup_In {A : Type} (k : string) (l : list (string * A)) (a : A) :
  lookup k l = Some a -> In k (map fst l).
Proof.
  induction l as [|[k' v] rest IH]; cbn; [discriminate|].
  destruct (String.eqb_spec k k') as [->|_]; auto.
Qed.

Lemma parse_elems_nth {A : Type} (f : Parser A) (p : list PathItem)
    (l : list value) :
  forall (i : nat) (ys : list A),
    parse_elems f p i l = inr ys ->
    forall (j : nat) (x : value),
      nth_error l j = Some x ->
      exists y, f (p ++ [at_index (i + j)])%list x = inr y.
Proof.
  induction l as [|x0 r IH]; intros i ys H j x Hj.
  - destruct j; discriminate Hj.
  - cbn [parse_elems] in H.
    apply andThen_inr in H. destruct H as (y0 & Hy0 & H).
    apply andThen_inr in H. destruct H as (ys0 & Hys0 & _).
    destruct j as [|j]; cbn [nth_error] in Hj.
    + injection Hj as <-. rewrite Nat.add_0_r. eauto.
    + rewrite <- Nat.add_succ_comm. eapply IH; eauto.
Qed.

Lemma schema_accepts_operator (p : list PathItem) (arguments : value)
    (params : SearchCompaniesArgs) (i j : nat) (op : string) :
  searchCompaniesSchema p arguments = inr params ->
  has_operator arguments i j op ->
  In op (map Operator_name operators).
Proof.
  intros H (fs & groups & gfs & fl & ffs & -> & Hg & Hi & Hf & Hj & Ho).
  unfold searchCompaniesSchema, z_object in H.
  apply andThen_inr in H. destruct H as (g & H & _).
  unfold field, z_array in H. rewrite Hg in H.
  destruct (parse_elems_nth _ _ _ _ _ H _ _ Hi) as (grp & Hgrp).
  unfold filterGroupSchema, z_object in Hgrp.
  apply andThen_inr in Hgrp. destruct Hgrp as (l & Hl & _).
  unfold field, z_array in Hl. rewrite Hf in Hl.
  destruct (parse_elems_nth _ _ _ _ _ Hl _ _ Hj) as (flt & Hflt).
  unfold filterSchema, z_object in Hflt.
  apply andThen_inr in Hflt. destruct Hflt as (n & _ & Hflt).
  apply andThen_inr in Hflt. destruct Hflt as (o & Hop & _).
  unfold field, operatorSchema, z_enum in Hop. rewrite Ho in Hop.
  destruct (lookup op _) as [o'|] eqn:E; [|discriminate Hop].
  apply lookup_In in E. rewrite map_map in E. exact E.
Qed.

Lemma schema_limit (p : list PathItem) (fs : obj)
    (params : SearchCompaniesArgs) :
  searchCompaniesSchema p (VObj fs) = inr params ->
  match get "limit" fs with
  | VUndefined => sc_limit params = None
  | VNum n =>
      sc_limit params = Some n
      /\ number_ltb n (number_of_Z 1) = false
      /\ number_ltb (number_of_Z 100) n = false
  | _ => False
  end.
Proof.
  intros H. unfold searchCompaniesSchema, z_object in H.
  apply andThen_inr in H. destruct H as (g & _ & H).
  apply andThen_inr in H. destruct H as (pr & _ & H).
  apply andThen_inr in H. destruct H as (l & Hl & H).
  apply andThen_inr in H. destruct H as (a & _ & H).
  apply andThen_inr in H. destruct H as (so & _ & H).
  injection H as <-. cbn [sc_limit].
  unfold field, z_optional, z_number_min_max in Hl.
  destruct (get "limit" fs) as [| |b|n|s0|el|o]; cbn in Hl; try discriminate Hl.
  - congruence.
  - destruct (number_ltb n (number_of_Z 1)); [discriminate Hl|].
    destruct (number_ltb (number_of_Z 100) n); [discriminate Hl|].
    cbn in Hl. injection Hl as <-. auto.
Qed.

Lemma search_returns (token : option string) (params : SearchCompaniesArgs)
    (log : list Request) :
  exists env log',
    crm_search_companies net token params log = (inr env, log').
Proof.
  unfold crm_search_companies. cbn zeta. rewrite handled_wrapper.
  match goal with
  | |- context [makeApiRequestWithErrorHandling _ ?k ?e ?q ?m ?b ?l] =>
      destruct (wrapper_returns k e q m b l) as (s & log' & H)
  end.
  eauto.
Qed.

Lemma callTool_rejects {A : Type} (describe : ZodIssue -> string)
    (schema : Parser A) (handler : A -> M Envelope) (arguments : value)
    (issue : ZodIssue) (log : list Request) :
  schema [] arguments = inl issue ->
  callTool describe schema handler arguments log
  = (inr (textEnvelope (describe issue)), log).
Proof.
  intros H. unfold callTool, handleEndpoint, validate. rewrite H.
  reflexivity.
Qed.

Lemma callTool_accepts {A : Type} (describe : ZodIssue -> string)
    (schema : Parser A) (handler : A -> M Envelope) (arguments : value)
    (params : A) (log log' : list Request) (env : Envelope) :
  schema [] arguments = inr params ->
  handler params log = (inr env, log') ->
  callTool describe schema handler arguments log = handler params log.
Proof.
  intros H Hh. unfold callTool, validate. rewrite H, Hh.
  apply handleEndpoint_returns. unfold bind, ret. exact Hh.
Qed.

(** C8. [crm_search_companies] posts the whole argument set as the JSON
    body to /crm/v3/objects/companies/search.  The schema is checked before
    the handler runs: arguments holding an operator outside the fixed
    enumeration, or a limit outside 1..100, are rejected, no request is
    issued, and the Envelope text is the validator's description of the
    issue. *)
Theorem search_companies_validated
    (describe : ZodIssue -> string) (token : string) (arguments : value)
    (log : list Request) :
  let tool :=
    callTool describe searchCompaniesSchema
      (crm_search_companies net (Some token)) in
  (forall params : SearchCompaniesArgs,
     searchCompaniesSchema [] arguments = inr params ->
     tool arguments log = crm_search_companies net (Some token) params log
     /\ (token <> EmptyString ->
         snd (tool arguments log)
         = app log
             [ {| url := "https://api.hubapi.com/crm/v3/objects/companies/search";
                  init :=
                    {| method := "POST";
                       headers := [("Accept", "application/json");
                                   ("Authorization", "Bearer " ++ token);
                                   ("Content-Type", "application/json")];
                       body :=
                         JSON_stringify
                           (VObj
                              [("filterGroups",
                                VArr (map FilterGroup_value (sc_filterGroups params)));
                               ("properties", optional strings (sc_properties params));
                               ("limit", optional VNum (sc_limit params));
                               ("after", optional VStr (sc_after params));
                               ("sorts",
                                optional (fun l => VArr (map Sort_value l))
                                  (sc_sorts params))]) |} |} ])
     /\ (forall i j op,
           has_operator arguments i j op ->
           In op ["EQ"; "NEQ"; "LT"; "LTE"; "GT"; "GTE"; "BETWEEN"; "IN";
                  "NOT_IN"; "HAS_PROPERTY"; "NOT_HAS_PROPERTY";
                  "CONTAINS_TOKEN"; "NOT_CONTAINS_TOKEN"])
     /\ (forall n,
           sc_limit params = Some n ->
           number_ltb n (number_of_Z 1) = false
           /\ number_ltb (number_of_Z 100) n = false))
  /\ (forall issue : ZodIssue,
        searchCompaniesSchema [] arguments = inl issue ->
        tool arguments log = (inr (textEnvelope (describe issue)), log))
  /\ (forall i j op,
        has_operator arguments i j op ->
        ~ In op ["EQ"; "NEQ"; "LT"; "LTE"; "GT"; "GTE"; "BETWEEN"; "IN";
                 "NOT_IN"; "HAS_PROPERTY"; "NOT_HAS_PROPERTY";
                 "CONTAINS_TOKEN"; "NOT_CONTAINS_TOKEN"] ->
        exists issue, searchCompaniesSchema [] arguments = inl issue)
  /\ (forall fs n,
        arguments = VObj fs -> get "limit" fs = VNum n ->
        number_ltb n (number_of_Z 1) = true
        \/ number_ltb (number_of_Z 100) n = true ->
        exists issue, searchCompaniesSchema [] arguments = inl issue).
Proof.
  intros tool. subst tool. split; [|split; [|split]].
  - intros params Hp.
    destruct (search_returns (Some token) params log) as (env & log' & Hr).
    assert (Hc : callTool describe searchCompaniesSchema
                   (crm_search_companies net (Some token)) arguments log
                 = crm_search_companies net (Some token) params log)
      by (eapply callTool_accepts; eauto).
    split; [exact Hc|]. split; [|split].
    + intros Hk. rewrite Hc.
      assert (Ht : truthy (Some token) = true)
        by (destruct token; [congruence | reflexivity]).
      unfold crm_search_companies. cbn zeta.
      rewrite handled_wrapper, wrapper_log, makeApiRequest_log, Ht.
      reflexivity.
    + intros i j op Ho. exact (schema_accepts_operator _ _ _ _ _ _ Hp Ho).
    + intros n Hn.
      assert (Hfs : exists fs, arguments = VObj fs).
      { unfold searchCompaniesSchema, z_object in Hp.
        destruct arguments; try discriminate Hp. eauto. }
      destruct Hfs as (fs & ->).
      pose proof (schema_limit _ _ _ Hp) as Hl.
      destruct (get "limit" fs); try contradiction; [congruence|].
      destruct Hl as (E & Hlo & Hhi). rewrite E in Hn. injection Hn as <-.
      auto.
  - intros issue Hi. apply callTool_rejects. exact Hi.
  - intros i j op Ho Hout.
    destruct (searchCompaniesSchema [] arguments) as [issue|params] eqn:E;
      [eauto|].
    exfalso. apply Hout. exact (schema_accepts_operator _ _ _ _ _ _ E Ho).
  - intros fs n -> Hl Hout.
    destruct (searchCompaniesSchema [] (VObj fs)) as [issue|params] eqn:E;
      [eauto|].
    exfalso. pose proof (schema_limit _ _ _ E) as H. rewrite Hl in H.
    destruct H as (_ & Hlo & Hhi). destruct Hout; congruence.
Qed.

End Properties.

(** ** The properties at concrete inputs *)

Import Examples.
#[local] Existing Instance ZNumber.

Lemma makeApiRequest_on_response_witness :
  fst (makeApiRequest net404 (Some "token") "/crm/v3/objects/companies/123"
         [] "GET" None [])
  = inr (VStr "Error fetching data from HubSpot: Status 404")
  /\ fst (makeApiRequest net204 (Some "token") "/crm/v3/objects/companies/123"
            [] "GET" None [])
     = inr (VStr "No data returned: Status 204")
  /\ fst (makeApiRequest net200 (Some "token") "/crm/v3/objects/companies/123"
            [] "GET" None [])
     = inr company.
Proof.
  split; [|split].
  - pose proof (makeApiRequest_on_response net404 (Some "token")
      "/crm/v3/objects/companies/123" [] "GET" None [] [] _
      eq_refl eq_refl eq_refl) as H.
    cbv zeta in H. destruct H as (_ & H & _). apply H. reflexivity.
  - pose proof (makeApiRequest_on_response net204 (Some "token")
      "/crm/v3/objects/companies/123" [] "GET" None [] [] _
      eq_refl eq_refl eq_refl) as H.
    cbv zeta in H. destruct H as (_ & _ & H & _). apply H. reflexivity.
  - pose proof (makeApiRequest_on_response net200 (Some "token")
      "/crm/v3/objects/companies/123" [] "GET" None [] [] _
      eq_refl eq_refl eq_refl) as H.
    cbv zeta in H. destruct H as (_ & _ & _ & H). apply H.
    + cbn. lia.
    + cbn. discriminate.
    + reflexivity.
Defined.

Lemma formatResponse_cases_witness :
  formatResponse (VStr "ok") = textEnvelope "ok"
  /\ formatResponse VNull = textEnvelope "No data returned"
  /\ (exists s, JSON_stringify mixed = Some s
                /\ formatResponse mixed = textEnvelope s)
  /\ formatResponse (VBool true) = textEnvelope "true".
Proof.
  split; [|split; [|split]].
  - destruct (formatResponse_cases (VStr "ok")) as (_ & H & _).
    apply H. reflexivity.
  - destruct (formatResponse_cases VNull) as (_ & _ & H & _).
    apply H. left. reflexivity.
  - destruct (formatResponse_cases mixed)
      as (_ & _ & _ & H & _).
    apply H; [reflexivity | discriminate].
  - destruct (formatResponse_cases (VBool true)) as (_ & _ & _ & _ & H).
    apply H; discriminate.
Defined.

Lemma missing_token_fails_fast_witness :
  makeApiRequest net200 None "/crm/v3/objects/companies" [] "POST" (Some acme) []
  = (inl (Error "HUBSPOT_ACCESS_TOKEN environment variable is not set"), [])
  /\ crm_create_company net200 (Some EmptyString) createArgs []
     = (inr (textEnvelope
          "Error performing request: HUBSPOT_ACCESS_TOKEN environment variable is not set"),
        []).
Proof.
  split.
  - apply (missing_token_fails_fast net200 None "/crm/v3/objects/companies" []
             "POST" (Some acme) [] createArgs).
    left. reflexivity.
  - apply (missing_token_fails_fast net200 (Some EmptyString)
             "/crm/v3/objects/companies" [] "POST" (Some acme) [] createArgs).
    right. reflexivity.
Defined.

(** C6, as stated, fails: a null value is not appended, the call raises
    on it and no request is issued. *)
Lemma null_query_value_is_not_appended :
  makeApiRequest net200 (Some "token") "/crm/v3/objects/companies/1"
    [("archived", VNull)] "GET" None []
  = (inl (TypeError "Cannot read properties of null (reading 'toString')"), []).
Proof. reflexivity. Qed.

Lemma query_built_from_defined_entries_witness :
  map url
    (snd (makeApiRequest net200 (Some "token") "/crm/v3/objects/companies/1"
            [("archived", VBool false); ("idProperty", VUndefined);
             ("properties", VStr "name,domain")] "GET" None []))
  = ["https://api.hubapi.com/crm/v3/objects/companies/1?archived=false&properties=name%2Cdomain"]
  /\ makeApiRequest net200 (Some "token") "/crm/v3/objects/companies/1"
       [("archived", VBool false); ("idProperty", VNull)] "GET" None []
     = (inl (TypeError "Cannot read properties of null (reading 'toString')"), []).
Proof.
  split.
  - destruct (query_built_from_defined_entries net200 (Some "token")
                "/crm/v3/objects/companies/1"
                [("archived", VBool false); ("idProperty", VUndefined);
                 ("properties", VStr "name,domain")] "GET" None []
                eq_refl eq_refl) as (_ & H & _).
    rewrite H. reflexivity.
  - destruct (query_built_from_defined_entries net200 (Some "token")
                "/crm/v3/objects/companies/1" [("archived", VBool false)]
                "GET" None [] eq_refl eq_refl) as (_ & _ & _ & _ & _ & H).
    exact (H "idProperty" []).
Defined.

(** C5, as stated, fails: an empty properties array is not omitted, it is
    sent as the parameter "properties=" while an absent one sends no
    query at all. *)
Lemma empty_properties_array_is_sent :
  map url (snd (crm_get_company net200 (Some "token") (get123 (Some [])) []))
  = ["https://api.hubapi.com/crm/v3/objects/companies/123?properties="]
  /\ map url (snd (crm_get_company net200 (Some "token") (get123 None) []))
     = ["https://api.hubapi.com/crm/v3/objects/companies/123"]
  /\ snd (crm_get_company net200 (Some "token") (get123 (Some [])) [])
     <> snd (crm_get_company net200 (Some "token") (get123 None) []).
Proof.
  split; [reflexivity|]. split; [reflexivity|].
  intros H. apply (f_equal (map url)) in H. vm_compute in H. discriminate H.
Qed.

Lemma get_company_request_witness :
  map url
    (snd (crm_get_company net200 (Some "token")
            (get123 (Some ["name"; "domain"])) []))
  = ["https://api.hubapi.com/crm/v3/objects/companies/123?properties=name%2Cdomain"]
  /\ lookup "properties" (getCompanyQuery (get123 None)) = None
  /\ lookup "properties" (getCompanyQuery (get123 (Some []))) = Some EmptyString
  /\ lookup "associations" (getCompanyQuery (get123 None)) = None
  /\ lookup "associations"
       (getCompanyQuery {| gc_companyId := "123"; gc_properties := None;
                           gc_associations := Some [] |})
     = Some EmptyString.
Proof.
  split; [|split; [|split; [|split]]].
  - destruct (get_company_request net200 "token"
                (get123 (Some ["name"; "domain"])) []) as (H & _).
    + discriminate.
    + rewrite H. reflexivity.
  - destruct (get_company_request net200 "token" (get123 None) [])
      as (_ & _ & H & _); [discriminate|].
    apply H. reflexivity.
  - destruct (get_company_request net200 "token" (get123 (Some [])) [])
      as (_ & _ & _ & H & _); [discriminate|].
    apply H. reflexivity.
  - destruct (get_company_request net200 "token" (get123 None) [])
      as (_ & _ & _ & _ & H & _); [discriminate|].
    apply H. reflexivity.
  - destruct (get_company_request net200 "token"
                {| gc_companyId := "123"; gc_properties := None;
                   gc_associations := Some [] |} [])
      as (_ & _ & _ & _ & _ & H); [discriminate|].
    apply H. reflexivity.
Defined.

(** C7, as stated, fails: the Envelope text on a raised exception is not
    the message string itself, it carries the prefix
    "Error performing request: ". *)
Lemma wrapper_text_is_not_the_message :
  makeApiRequest net200 None "/crm/v3/objects/companies" [] "POST" (Some acme) []
  = (inl (Error "HUBSPOT_ACCESS_TOKEN environment variable is not set"), [])
  /\ fst (makeApiRequestWithErrorHandling net200 None
            "/crm/v3/objects/companies" [] "POST" (Some acme) [])
     <> inr (formatResponse
               (VStr "HUBSPOT_ACCESS_TOKEN environment variable is not set")).
Proof.
  split; [reflexivity|].
  intros H. vm_compute in H. discriminate H.
Qed.

Lemma wrapper_formats_outcome_witness :
  makeApiRequestWithErrorHandling offline (Some "token")
    "/crm/v3/objects/companies" [] "POST" (Some acme) []
  = (inr (textEnvelope "Error performing request: fetch failed"), [createRequest])
  /\ makeApiRequestWithErrorHandling net404 (Some "token")
       "/crm/v3/objects/companies" [] "POST" (Some acme) []
     = (inr (textEnvelope "Error fetching data from HubSpot: Status 404"),
        [createRequest]).
Proof.
  split.
  - destruct (wrapper_formats_outcome offline (Some "token")
                "/crm/v3/objects/companies" [] "POST" (Some acme) [])
      as (H & _).
    destruct (H (TypeError "fetch failed") [createRequest] eq_refl) as (E & _).
    exact E.
  - destruct (wrapper_formats_outcome net404 (Some "token")
                "/crm/v3/objects/companies" [] "POST" (Some acme) [])
      as (_ & H & _).
    exact (H (VStr "Error fetching data from HubSpot: Status 404")
             [createRequest] eq_refl).
Defined.

Lemma request_headers_and_body_witness :
  snd (makeApiRequest net200 (Some "token") "/crm/v3/objects/companies" []
         "POST" (Some acme) [])
  = [createRequest]
  /\ lookup "Accept" (headers (init createRequest)) = Some "application/json"
  /\ lookup "Authorization" (headers (init createRequest)) = Some "Bearer token"
  /\ lookup "Content-Type" (headers (init createRequest))
     = Some "application/json"
  /\ body (init createRequest) = JSON_stringify (VObj acme).
Proof.
  split; [reflexivity|].
  destruct (request_headers_and_body net200 (Some "token")
              "/crm/v3/objects/companies" [] "POST" (Some acme) []
              [createRequest] createRequest eq_refl (or_introl eq_refl))
    as (Ha & (t & Ht & Hb) & Hc & Hp).
  injection Ht as <-. auto.
Defined.

Lemma handleEndpoint_identity_witness :
  handleEndpoint (add (Num := ZNumber) 2%Z 3%Z) [] = (inr (textEnvelope "5"), []).
Proof.
  apply (handleEndpoint_identity net200 (add (Num := ZNumber) 2%Z 3%Z) [] [] (textEnvelope "5")
           None EmptyString [] EmptyString None).
  reflexivity.
Defined.

Lemma search_companies_validated_witness :
  (searchCompaniesSchema [] (searchArguments "EQ" 10) = inr searchParams
   /\ map (fun r => (url r, method (init r)))
        (snd (callTool describe searchCompaniesSchema
                (crm_search_companies net200 (Some "token"))
                (searchArguments "EQ" 10) []))
      = [("https://api.hubapi.com/crm/v3/objects/companies/search", "POST")])
  /\ (exists issue,
        searchCompaniesSchema [] (searchArguments "LIKE" 10) = inl issue
        /\ callTool describe searchCompaniesSchema
             (crm_search_companies net200 (Some "token"))
             (searchArguments "LIKE" 10) []
           = (inr (textEnvelope (describe issue)), []))
  /\ (exists issue,
        searchCompaniesSchema [] (searchArguments "EQ" 500) = inl issue
        /\ callTool describe searchCompaniesSchema
             (crm_search_companies net200 (Some "token"))
             (searchArguments "EQ" 500) []
           = (inr (textEnvelope (describe issue)), [])).
Proof.
  split; [|split].
  - split; [reflexivity|].
    pose proof (search_companies_validated net200 describe "token"
                  (searchArguments "EQ" 10) []) as H.
    cbv zeta in H. destruct H as (H & _).
    destruct (H searchParams eq_refl) as (_ & Hlog & _).
    rewrite Hlog; [reflexivity | discriminate].
  - pose proof (search_companies_validated net200 describe "token"
                  (searchArguments "LIKE" 10) []) as H.
    cbv zeta in H. destruct H as (_ & Hrej & Hop & _).
    destruct (Hop 0 0 "LIKE") as (issue & Hi).
    + unfold has_operator, searchArguments.
      do 5 eexists. repeat split; reflexivity.
    + cbn. intuition discriminate.
    + exists issue. split; [exact Hi | exact (Hrej issue Hi)].
  - pose proof (search_companies_validated net200 describe "token"
                  (searchArguments "EQ" 500) []) as H.
    cbv zeta in H. destruct H as (_ & Hrej & _ & Hlim).
    destruct (Hlim _ 500%Z eq_refl eq_refl) as (issue & Hi).
    + right. reflexivity.
    + exists issue. split; [exact Hi | exact (Hrej issue Hi)].
Defined.

(** ** Scenarios of the specification, evaluated *)

Example add_2_3 :
  add (Num := ZNumber) 2%Z 3%Z [] = (inr (textEnvelope "5"), []).
Proof. reflexivity. Qed.

Example status_404_text :
  fst (crm_get_company net404 (Some "token") (get123 None) [])
  = inr (textEnvelope "Error fetching data from HubSpot: Status 404").
Proof. reflexivity. Qed.

Example status_204_text :
  fst (crm_get_company net204 (Some "token") (get123 None) [])
  = inr (textEnvelope "No data returned: Status 204").
Proof. reflexivity. Qed.

Example transport_failure_text :
  fst (crm_get_company offline (Some "token") (get123 None) [])
  = inr (textEnvelope "Error performing request: fetch failed").
Proof. reflexivity. Qed.

Example unknown_operator_issue :
  searchCompaniesSchema [] (searchArguments "LIKE" 10)
  = inl {| code :=
             invalid_enum_value "LIKE" (map Operator_name operators);
           path := [at_key "filterGroups"; at_index 0; at_key "filters";
                    at_index 0; at_key "operator"] |}.
Proof. reflexivity. Qed.

Example query_encoding :
  URLSearchParams_toString [("properties", "name,domain"); ("q", "a b&c")]
  = "properties=name%2Cdomain&q=a+b%26c".
Proof. reflexivity. Qed.

(** ** Further properties of the code *)

Import Requests Schemas Cases.
#[local] Remove Hints ZNumber : typeclass_instances.

Section Coverage.
Context {Num : JSNumber}.
Variable net : Network.

(** *** Strings *)

Lemma string_app_assoc (a b c : string) : (a ++ b) ++ c = a ++ (b ++ c).
Proof. induction a as [|x a IH]; cbn; [reflexivity | now rewrite IH]. Qed.

Lemma string_app_nil_r (a : string) : a ++ EmptyString = a.
Proof. induction a as [|x a IH]; cbn; [reflexivity | now rewrite IH]. Qed.

Lemma nonempty_truthy (token : string) :
  token <> EmptyString -> truthy (Some token) = true.
Proof. destruct token; [congruence | reflexivity]. Qed.

(** *** One request, one answer *)

Lemma wrapper_on_request apiKey endpoint params meth payload log q :
  truthy apiKey = true ->
  queryOf params = inr q ->
  makeApiRequestWithErrorHandling net apiKey endpoint params meth payload log
  = (inr (outcomeEnvelope (net (apiRequest apiKey endpoint q meth payload))),
     app log [apiRequest apiKey endpoint q meth payload]).
Proof.
  intros Hk Hq. rewrite wrapper_run, makeApiRequest_run, Hk, Hq. cbn zeta.
  unfold outcomeEnvelope.
  destruct (net _) as [e|r]; [reflexivity|].
  destruct (responseResult r); reflexivity.
Qed.

Lemma wrapper_without_token apiKey endpoint params meth payload log :
  truthy apiKey = false ->
  makeApiRequestWithErrorHandling net apiKey endpoint params meth payload log
  = (inr (textEnvelope
       "Error performing request: HUBSPOT_ACCESS_TOKEN environment variable is not set"),
     log).
Proof.
  intros Hk. rewrite wrapper_run, makeApiRequest_run, Hk. reflexivity.
Qed.

Lemma crm_run (token : string) (c : ToolCall) (log : list Request) :
  token <> EmptyString -> is_crm c = true ->
  exists req,
    toolRequest token c = [req]
    /\ invoke net (Some token) c log
       = (inr (outcomeEnvelope (net req)), app log [req]).
Proof.
  intros Hk Hc. apply nonempty_truthy in Hk.
  destruct c as [a b|params|params|params|params]; try discriminate Hc;
    cbn [invoke toolRequest]; eexists; (split; [reflexivity|]).
  - unfold crm_create_company. cbn zeta. rewrite handled_wrapper.
    apply wrapper_on_request; [exact Hk | reflexivity].
  - unfold crm_update_company. cbn zeta. rewrite handled_wrapper.
    apply wrapper_on_request; [exact Hk | reflexivity].
  - unfold crm_get_company. cbn zeta. rewrite handled_wrapper.
    apply wrapper_on_request; [exact Hk | apply getCompany_query].
  - unfold crm_search_companies. cbn zeta. rewrite handled_wrapper.
    apply wrapper_on_request; [exact Hk | reflexivity].
Qed.

Lemma crm_without_token (apiKey : option string) (c : ToolCall)
    (log : list Request) :
  truthy apiKey = false -> is_crm c = true ->
  invoke net apiKey c log
  = (inr (textEnvelope
       "Error performing request: HUBSPOT_ACCESS_TOKEN environment variable is not set"),
     log).
Proof.
  intros Hk Hc.
  destruct c as [a b|params|params|params|params]; try discriminate Hc;
    cbn [invoke].
  - unfold crm_create_company. cbn zeta. rewrite handled_wrapper.
    apply wrapper_without_token, Hk.
  - unfold crm_update_company. cbn zeta. rewrite handled_wrapper.
    apply wrapper_without_token, Hk.
  - unfold crm_get_company. cbn zeta. rewrite handled_wrapper.
    apply wrapper_without_token, Hk.
  - unfold crm_search_companies. cbn zeta. rewrite handled_wrapper.
    apply wrapper_without_token, Hk.
Qed.

(** X1. A tool invocation only appends to the request log, and appends at
    most one request: exactly one for a CRM tool with a token, none for a
    CRM tool without a token, none for [add]. *)
Theorem invocation_issues_at_most_one_request
    (apiKey : option string) (c : ToolCall) (log : list Request) :
  exists issued : list Request,
    snd (invoke net apiKey c log) = app log issued
    /\ length issued = if is_crm c && truthy apiKey then 1 else 0.
Proof.
  destruct (is_crm c) eqn:Hc; cbn [andb].
  - destruct (truthy apiKey) eqn:Hk.
    + destruct apiKey as [[|ch t]|]; try discriminate Hk.
      destruct (crm_run (String ch t) c log) as (req & _ & H);
        [discriminate | exact Hc |].
      exists [req]. rewrite H. split; reflexivity.
    + exists []. rewrite crm_without_token by assumption.
      cbn [snd]. rewrite app_nil_r. split; reflexivity.
  - destruct c; try discriminate Hc. exists [].
    cbn. rewrite app_nil_r. split; reflexivity.
Qed.

(** X2. End to end, for every CRM tool: when HubSpot answers the tool's
    request, the Envelope text is "Error fetching data from HubSpot:
    Status <code>" for a status outside 200-299, "No data returned: Status
    204" for 204, and otherwise the formatted JSON value of the body. *)
Theorem upstream_answer_reaches_envelope
    (token : string) (c : ToolCall) (log : list Request) (req : Request)
    (r : Response) :
  token <> EmptyString ->
  toolRequest token c = [req] ->
  net req = Resolved r ->
  let result := fst (invoke net (Some token) c log) in
  ((status r < 200 \/ 299 < status r)%N ->
   result = inr (textEnvelope ("Error fetching data from HubSpot: Status "
                               ++ N_toString (status r))))
  /\ (status r = 204%N ->
      result = inr (textEnvelope "No data returned: Status 204"))
  /\ (forall v : value,
        (200 <= status r <= 299)%N -> status r <> 204%N ->
        json_result r = inr v -> result = inr (formatResponse v)).
Proof.
  intros Hk Hreq Hnet result. subst result.
  assert (Hc : is_crm c = true) by (destruct c; [discriminate Hreq | | | |]; reflexivity).
  destruct (crm_run token c log Hk Hc) as (req' & Hreq' & H).
  rewrite Hreq in Hreq'. injection Hreq' as <-.
  rewrite H, Hnet. cbn [fst outcomeEnvelope]. unfold responseResult, ok.
  split; [|split].
  - intros Hout.
    assert (E : ((200 <=? status r) && (status r <=? 299))%N = false).
    { apply andb_false_iff. destruct Hout as [Ho|Ho];
        [left | right]; apply N.leb_gt; exact Ho. }
    rewrite E. reflexivity.
  - intros E. rewrite E. reflexivity.
  - intros v [Hlo Hhi] Hne Hv.
    apply N.leb_le in Hlo. apply N.leb_le in Hhi. rewrite Hlo, Hhi.
    apply N.eqb_neq in Hne. rewrite Hne. cbn. rewrite Hv. reflexivity.
Qed.

(** X3. End to end, for every CRM tool: a transport failure, and a success
    status whose body is not JSON, both end as the Envelope text "Error
    performing request: <message>"; the request stays in the log. *)
Theorem failures_become_prefixed_text
    (token : string) (c : ToolCall) (log : list Request) (req : Request) :
  token <> EmptyString ->
  toolRequest token c = [req] ->
  (forall e : exn,
     net req = Rejected e ->
     invoke net (Some token) c log
     = (inr (textEnvelope ("Error performing request: " ++ message e)),
        app log [req]))
  /\ (forall (r : Response) (e : exn),
        net req = Resolved r ->
        (200 <= status r <= 299)%N -> status r <> 204%N ->
        json_result r = inl e ->
        invoke net (Some token) c log
        = (inr (textEnvelope ("Error performing request: " ++ message e)),
           app log [req])).
Proof.
  intros Hk Hreq.
  assert (Hc : is_crm c = true) by (destruct c; [discriminate Hreq | | | |]; reflexivity).
  destruct (crm_run token c log Hk Hc) as (req' & Hreq' & H).
  rewrite Hreq in Hreq'. injection Hreq' as <-.
  split.
  - intros e Hnet. rewrite H, Hnet. reflexivity.
  - intros r e Hnet [Hlo Hhi] Hne He. rewrite H, Hnet.
    cbn [outcomeEnvelope]. unfold responseResult, ok.
    apply N.leb_le in Hlo. apply N.leb_le in Hhi. rewrite Hlo, Hhi.
    apply N.eqb_neq in Hne. rewrite Hne. cbn. rewrite He. reflexivity.
Qed.

(** *** The requests of the tools *)

(** X4. With a token, [crm_create_company] issues one POST to the
    companies collection with the JSON body {properties, associations};
    when no associations are given the body is that of {properties} alone. *)
Theorem create_company_request
    (token : string) (params : CreateCompanyArgs) (log : list Request) :
  token <> EmptyString ->
  snd (crm_create_company net (Some token) params log)
  = app log
      [ {| url := "https://api.hubapi.com/crm/v3/objects/companies";
           init :=
             {| method := "POST";
                headers := [("Accept", "application/json");
                            ("Authorization", "Bearer " ++ token);
                            ("Content-Type", "application/json")];
                body :=
                  JSON_stringify
                    (VObj [("properties", VObj (cc_properties params));
                           ("associations",
                            optional (fun l => VArr (map Association_value l))
                              (cc_associations params))]) |} |} ]
  /\ (cc_associations params = None ->
      JSON_stringify
        (VObj [("properties", VObj (cc_properties params));
               ("associations",
                optional (fun l => VArr (map Association_value l))
                  (cc_associations params))])
      = JSON_stringify (VObj [("properties", VObj (cc_properties params))])).
Proof.
  intros Hk. split.
  - destruct (crm_run token (call_crm_create_company params) log Hk eq_refl)
      as (req & Hreq & H).
    cbn [invoke] in H. rewrite H. cbn [snd toolRequest] in *.
    injection Hreq as <-. reflexivity.
  - intros ->. reflexivity.
Qed.

(** X5. With a token, [crm_update_company] issues one PATCH to
    /crm/v3/objects/companies/<companyId>, the id taken verbatim, with the
    JSON body {properties} and no query string. *)
Theorem update_company_request
    (token : string) (params : UpdateCompanyArgs) (log : list Request) :
  token <> EmptyString ->
  snd (crm_update_company net (Some token) params log)
  = app log
      [ {| url := "https://api.hubapi.com/crm/v3/objects/companies/"
                  ++ uc_companyId params;
           init :=
             {| method := "PATCH";
                headers := [("Accept", "application/json");
                            ("Authorization", "Bearer " ++ token);
                            ("Content-Type", "application/json")];
                body :=
                  JSON_stringify
                    (VObj [("properties", VObj (uc_properties params))]) |} |} ].
Proof.
  intros Hk.
  destruct (crm_run token (call_crm_update_company params) log Hk eq_refl)
    as (req & Hreq & H).
  cbn [invoke] in H. rewrite H. cbn [snd toolRequest] in *.
  injection Hreq as <-. unfold apiRequest. cbn [query_suffix].
  unfold query_suffix. cbn [URLSearchParams_toString map String.concat].
  rewrite string_app_nil_r. reflexivity.
Qed.

(** X6. Optional search arguments that are absent leave no trace in the
    JSON body: the body is the serialization of the object holding
    filterGroups and only the optional arguments that are present. *)
Theorem search_body_omits_absent (params : SearchCompaniesArgs) :
  JSON_stringify (VObj (searchBody params))
  = JSON_stringify
      (VObj
         (("filterGroups", VArr (map FilterGroup_value (sc_filterGroups params)))
          :: (present "properties" (optional strings (sc_properties params))
              ++ present "limit" (optional VNum (sc_limit params))
              ++ present "after" (optional VStr (sc_after params))
              ++ present "sorts"
                   (optional (fun l => VArr (map Sort_value l))
                      (sc_sorts params)))%list)).
Proof.
  unfold searchBody.
  destruct (sc_properties params), (sc_limit params), (sc_after params),
    (sc_sorts params); reflexivity.
Qed.

(** *** The query loop *)

(** X7. The query loop of [makeApiRequest], in full: it yields the
    parameters that are not undefined, in order, each with the string form
    of its value, exactly when each of those values has a string form;
    otherwise it fails with a TypeError, that of the first value without
    one: null, or an object that owns a [toString] property. *)
Theorem queryOf_characterised (params : obj) :
  (forallb appendable params = true ->
   queryOf params = inr (definedEntries params))
  /\ (forallb appendable params = false ->
      exists msg, queryOf params = inl (TypeError msg))
  /\ (forall k post,
        forallb appendable params = true ->
        queryOf (app params ((k, VNull) :: post))
        = inl (TypeError "Cannot read properties of null (reading 'toString')"))
  /\ (forall k fs post,
        forallb appendable params = true ->
        lookup "toString" fs <> None ->
        queryOf (app params ((k, VObj fs) :: post))
        = inl (TypeError "value.toString is not a function")).
Proof.
  unfold queryOf. split; [|split; [|split]].
  - intros H. rewrite (appendParams_appendable params H). reflexivity.
  - intros H. apply appendParams_fails, H.
  - intros k post H. apply appendParams_stops;
      [exact H | reflexivity | discriminate].
  - intros k fs post H Hfs. apply appendParams_stops;
      [exact H | | discriminate].
    cbn [toString_result]. destruct (lookup "toString" fs); congruence.
Qed.

Lemma toString_nonempty (q : URLSearchParams) :
  q <> [] -> exists c t, URLSearchParams_toString q = String c t.
Proof.
  destruct q as [|[k v] rest]; [congruence|]. intros _.
  unfold URLSearchParams_toString. cbn [map fst snd].
  assert (Hx : exists c t, urlencode k ++ "=" ++ urlencode v = String c t).
  { destruct (urlencode k); cbn; eauto. }
  destruct Hx as (c & t & Hx).
  cbn [String.concat]. rewrite Hx.
  destruct (map _ rest); cbn; eauto.
Qed.

(** X8. The URL carries a "?" exactly when at least one query parameter is
    appended; for [crm_get_company] the query string is empty exactly when
    both properties and associations are absent. *)
Theorem bare_url_iff_no_parameter :
  (forall q : URLSearchParams, query_suffix q = EmptyString <-> q = [])
  /\ (forall q : URLSearchParams,
        q <> [] -> query_suffix q = "?" ++ URLSearchParams_toString q)
  /\ (forall params : GetCompanyArgs,
        query_suffix (getCompanyQuery params) = EmptyString
        <-> gc_properties params = None /\ gc_associations params = None).
Proof.
  assert (H1 : forall q : URLSearchParams, query_suffix q = EmptyString <-> q = []).
  { intros q. split.
    - intros H. destruct q as [|kv rest]; [reflexivity|]. exfalso.
      destruct (toString_nonempty (kv :: rest)) as (c & t & E); [discriminate|].
      unfold query_suffix in H. rewrite E in H. discriminate H.
    - intros ->. reflexivity. }
  split; [exact H1|]. split.
  - intros q Hq. destruct (toString_nonempty q Hq) as (c & t & E).
    unfold query_suffix. rewrite E. reflexivity.
  - intros params. rewrite H1. unfold getCompanyQuery.
    destruct (gc_properties params), (gc_associations params); cbn;
      split; try discriminate; try tauto; intros [? ?]; discriminate.
Qed.

(** X9. Whatever the arguments, every request a tool issues goes to
    https://api.hubapi.com/crm/v3/objects/companies..., uses GET, POST or
    PATCH, and carries the configured, non-empty token as Bearer
    authorization. *)
Theorem requests_stay_on_hubspot
    (apiKey : option string) (c : ToolCall) (log issued : list Request)
    (req : Request) :
  snd (invoke net apiKey c log) = app log issued ->
  In req issued ->
  (exists rest,
     url req = "https://api.hubapi.com/crm/v3/objects/companies" ++ rest)
  /\ In (method (init req)) ["GET"; "POST"; "PATCH"]
  /\ (exists token,
        apiKey = Some token /\ token <> EmptyString
        /\ lookup "Authorization" (headers (init req))
           = Some ("Bearer " ++ token)).
Proof.
  intros Hlog Hin.
  assert (Hnone : forall l : list Request, log = app log l -> l = []).
  { intros l E. rewrite <- (app_nil_r log) in E at 1.
    apply app_inv_head in E. congruence. }
  destruct (is_crm c) eqn:Hc.
  - destruct (truthy apiKey) eqn:Hk.
    + destruct apiKey as [[|ch t]|]; try discriminate Hk.
      destruct (crm_run (String ch t) c log) as (r0 & Hreq & H);
        [discriminate | exact Hc |].
      rewrite H in Hlog. cbn [snd] in Hlog.
      apply app_inv_head in Hlog. subst issued.
      destruct Hin as [<-|[]].
      destruct c as [a b|params|params|params|params]; try discriminate Hc;
        cbn [toolRequest] in Hreq; injection Hreq as <-;
        unfold apiRequest, requestOptions, requestHeaders;
        cbn [url init method headers];
        (split; [eexists; cbn; reflexivity|]);
        (split; [cbn; tauto|]);
        exists (String ch t); (split; [reflexivity|]);
        (split; [discriminate | reflexivity]).
    + rewrite crm_without_token in Hlog by assumption.
      apply Hnone in Hlog. subst issued. contradiction.
  - destruct c; try discriminate Hc. cbn in Hlog.
    apply Hnone in Hlog. subst issued. contradiction.
Qed.

(** X10. The company id is put into the path as it is: an id that already
    ends in "?properties=" and an encoded list gives the same request and
    the same result as the plain id called with that list of properties. *)
Theorem company_id_is_not_encoded
    (apiKey : option string) (id : string) (properties : list string)
    (log : list Request) :
  crm_get_company net apiKey
    {| gc_companyId :=
         id ++ "?properties=" ++ urlencode (String.concat "," properties);
       gc_properties := None; gc_associations := None |} log
  = crm_get_company net apiKey
      {| gc_companyId := id; gc_properties := Some properties;
         gc_associations := None |} log.
Proof.
  unfold crm_get_company. cbn zeta. rewrite !handled_wrapper, !wrapper_run.
  rewrite !makeApiRequest_run. cbn [gc_companyId gc_properties gc_associations optional].
  destruct (truthy apiKey); [|reflexivity].
  assert (E : forall meth payload,
            apiRequest apiKey
              ("/crm/v3/objects/companies/"
               ++ id ++ "?properties=" ++ urlencode (String.concat "," properties))
              [] meth payload
            = apiRequest apiKey ("/crm/v3/objects/companies/" ++ id)
                [("properties", String.concat "," properties)] meth payload).
  { intros meth payload. unfold apiRequest. f_equal.
    assert (Q : query_suffix [("properties", String.concat "," properties)]
                = "?properties=" ++ urlencode (String.concat "," properties))
      by reflexivity.
    rewrite Q. change (query_suffix []) with EmptyString.
    rewrite string_app_nil_r, (string_app_assoc _ id). reflexivity. }
  change (queryOf [("properties", VUndefined); ("associations", VUndefined)])
    with (@inr exn URLSearchParams []).
  change (queryOf [("properties", VStr (String.concat "," properties));
                   ("associations", VUndefined)])
    with (@inr exn URLSearchParams [("properties", String.concat "," properties)]).
  cbv beta iota zeta. rewrite E. reflexivity.
Qed.

(** *** handleEndpoint and getConfig *)

(** X11. [handleEndpoint] never raises and issues no request of its own;
    when the wrapped call raises, the Envelope text is the exception's
    message, without prefix; wrapping twice changes nothing. *)
Theorem handleEndpoint_never_raises (apiCall : M Envelope) (log : list Request) :
  (exists env, fst (handleEndpoint apiCall log) = inr env)
  /\ snd (handleEndpoint apiCall log) = snd (apiCall log)
  /\ (forall e log',
        apiCall log = (inl e, log') ->
        handleEndpoint apiCall log = (inr (textEnvelope (message e)), log'))
  /\ handleEndpoint (handleEndpoint apiCall) log = handleEndpoint apiCall log.
Proof.
  unfold handleEndpoint, try_catch, ret.
  destruct (apiCall log) as [[e|env] log'] eqn:E; cbn.
  - repeat split; eauto. intros e0 l0 H. injection H as <- <-. reflexivity.
  - repeat split; eauto. intros e0 l0 H. discriminate H.
Qed.

(** X12. [getConfig] lets a configured token win as soon as it is defined:
    a configured empty string hides the environment's token, and every CRM
    tool then reports the missing token without issuing a request; with no
    configured token the environment's token is the one sent. *)
Theorem configured_token_takes_precedence
    (env_token : option string) (c : ToolCall) (log : list Request) :
  is_crm c = true ->
  invoke net (getConfig (Some EmptyString) env_token) c log
  = (inr (textEnvelope
       "Error performing request: HUBSPOT_ACCESS_TOKEN environment variable is not set"),
     log)
  /\ (forall t, t <> EmptyString ->
        snd (invoke net (getConfig None (Some t)) c log)
        = app log (toolRequest t c))
  /\ (forall t t', t <> EmptyString ->
        snd (invoke net (getConfig (Some t) (Some t')) c log)
        = app log (toolRequest t c)).
Proof.
  intros Hc. split; [|split].
  - apply crm_without_token; [reflexivity | exact Hc].
  - intros t Ht. cbn [getConfig].
    destruct (crm_run t c log Ht Hc) as (req & Hreq & H).
    rewrite H, Hreq. reflexivity.
  - intros t t' Ht. cbn [getConfig].
    destruct (crm_run t c log Ht Hc) as (req & Hreq & H).
    rewrite H, Hreq. reflexivity.
Qed.

(** X13. The earlier [getConfig] falls back on every falsy value: its
    token is usable exactly when one of the two sources is, it agrees with
    the current [getConfig] unless the configured token is the empty
    string, and its telemetry setting is never empty or missing. *)
Theorem earlier_getConfig_falls_back_on_empty
    (config_token env_token config_telemetry env_telemetry : option string) :
  let cfg :=
    Revision1.getConfig config_token env_token config_telemetry env_telemetry in
  truthy (Revision1.hubspotAccessToken cfg)
  = truthy config_token || truthy env_token
  /\ (config_token <> Some EmptyString ->
      Revision1.hubspotAccessToken cfg = getConfig config_token env_token)
  /\ (config_token = Some EmptyString ->
      Revision1.hubspotAccessToken cfg = env_token
      /\ getConfig config_token env_token = Some EmptyString)
  /\ truthy (Revision1.telemetryEnabled cfg) = true.
Proof.
  cbn zeta. unfold Revision1.getConfig, Revision1.or_else.
  cbn [Revision1.hubspotAccessToken Revision1.telemetryEnabled].
  split; [|split; [|split]].
  - destruct (truthy config_token) eqn:E; [now rewrite E | reflexivity].
  - intros Hne. destruct config_token as [[|ch t]|]; try congruence; reflexivity.
  - intros ->. split; reflexivity.
  - destruct (truthy config_telemetry) eqn:E1.
    + rewrite E1. exact E1.
    + destruct (truthy env_telemetry) eqn:E2; [exact E2 | reflexivity].
Qed.

(** *** The search schema against the handler's body *)

Lemma parse_elems_map {A : Type} (f : Parser A) (enc : A -> value) :
  (forall p x, f p (enc x) = inr x) ->
  forall (l : list A) (p : list PathItem) (i : nat),
    parse_elems f p i (map enc l) = inr l.
Proof.
  intros Hf. induction l as [|x l IH]; intros p i; cbn [map parse_elems].
  - reflexivity.
  - rewrite Hf. cbn [andThen]. rewrite IH. reflexivity.
Qed.

Lemma operator_lookup (o : Operator) :
  lookup (Operator_name o) (map (fun o => (Operator_name o, o)) operators)
  = Some o.
Proof. destruct o; reflexivity. Qed.

Lemma filterSchema_round_trip (p : list PathItem) (f : Filter) :
  filterSchema p (Filter_value f) = inr f.
Proof.
  destruct f as [n o v]. unfold filterSchema, z_object, Filter_value, field.
  cbn [propertyName operator filter_value].
  change (get "propertyName" _) with (VStr n).
  change (get "operator" _) with (VStr (Operator_name o)).
  change (get "value" _) with v.
  unfold operatorSchema, z_enum, z_string, z_any. cbn [andThen].
  rewrite operator_lookup. reflexivity.
Qed.

Lemma filterGroupSchema_round_trip (p : list PathItem) (g : FilterGroup) :
  filterGroupSchema p (FilterGroup_value g) = inr g.
Proof.
  destruct g as [l]. unfold filterGroupSchema, z_object, FilterGroup_value, field.
  cbn [filters]. change (get "filters" _) with (VArr (map Filter_value l)).
  unfold z_array. rewrite (parse_elems_map filterSchema Filter_value).
  - reflexivity.
  - intros. apply filterSchema_round_trip.
Qed.

Lemma sortSchema_round_trip (p : list PathItem) (s : Sort) :
  sortSchema p (Sort_value s) = inr s.
Proof.
  destruct s as [n d]. unfold sortSchema, z_object, Sort_value, field.
  cbn [sort_propertyName direction].
  change (get "propertyName" _) with (VStr n).
  change (get "direction" _) with (VStr (Direction_name d)).
  unfold directionSchema, z_enum, z_string. cbn [andThen].
  destruct d; reflexivity.
Qed.

Lemma strings_round_trip (p : list PathItem) (l : list string) :
  z_array z_string p (strings l) = inr l.
Proof.
  unfold z_array, strings. apply (parse_elems_map z_string VStr).
  reflexivity.
Qed.

(** X14. What the search handler puts in the request body passes the
    tool's own schema and validates back to the very arguments it was
    built from: nothing is lost or altered between validation and the
    wire. *)
Theorem search_schema_round_trip
    (p : list PathItem) (params : SearchCompaniesArgs) :
  limit_in_range (sc_limit params) ->
  searchCompaniesSchema p (VObj (searchBody params)) = inr params.
Proof.
  destruct params as [g pr l a so]. unfold limit_in_range. cbn [sc_limit].
  intros Hl. unfold searchCompaniesSchema, z_object, searchBody, field.
  cbn [sc_filterGroups sc_properties sc_limit sc_after sc_sorts].
  change (get "filterGroups" _) with (VArr (map FilterGroup_value g)).
  change (get "properties" _) with (optional strings pr).
  change (get "limit" _) with (optional VNum l).
  change (get "after" _) with (optional VStr a).
  change (get "sorts" _) with (optional (fun l => VArr (map Sort_value l)) so).
  unfold z_array at 1.
  rewrite (parse_elems_map filterGroupSchema FilterGroup_value)
    by (intros; apply filterGroupSchema_round_trip).
  cbn [andThen].
  assert (Hpr : z_optional (z_array z_string) (p ++ [at_key "properties"])%list
                  (optional strings pr) = inr pr).
  { destruct pr as [x|]; [|reflexivity]. unfold z_optional. cbn [optional].
    unfold strings at 1. fold (strings x). rewrite strings_round_trip.
    reflexivity. }
  rewrite Hpr. cbn [andThen].
  assert (Hlim : z_optional (z_number_min_max 1 100) (p ++ [at_key "limit"])%list
                   (optional VNum l) = inr l).
  { destruct l as [n|]; [|reflexivity]. destruct Hl as [Hlo Hhi].
    unfold z_optional, z_number_min_max. cbn [optional].
    rewrite Hlo, Hhi. reflexivity. }
  rewrite Hlim. cbn [andThen].
  assert (Ha : z_optional z_string (p ++ [at_key "after"])%list
                 (optional VStr a) = inr a)
    by (destruct a; reflexivity).
  rewrite Ha. cbn [andThen].
  assert (Hso : z_optional (z_array sortSchema) (p ++ [at_key "sorts"])%list
                  (optional (fun l => VArr (map Sort_value l)) so) = inr so).
  { destruct so as [x|]; [|reflexivity]. unfold z_optional, z_array.
    cbn [optional].
    rewrite (parse_elems_map sortSchema Sort_value)
      by (intros; apply sortSchema_round_trip).
    reflexivity. }
  rewrite Hso. reflexivity.
Qed.

Lemma schema_optional_not_null (p : list PathItem) (fs : obj)
    (params : SearchCompaniesArgs) (k : string) :
  searchCompaniesSchema p (VObj fs) = inr params ->
  In k ["properties"; "limit"; "after"; "sorts"] ->
  get k fs <> VNull.
Proof.
  intros H Hk E. unfold searchCompaniesSchema, z_object in H.
  apply andThen_inr in H. destruct H as (g & _ & H).
  apply andThen_inr in H. destruct H as (pr & Hpr & H).
  apply andThen_inr in H. destruct H as (l & Hl & H).
  apply andThen_inr in H. destruct H as (a & Ha & H).
  apply andThen_inr in H. destruct H as (so & Hso & _).
  unfold field, z_optional in Hpr, Hl, Ha, Hso.
  destruct Hk as [<-|[<-|[<-|[<-|[]]]]].
  - rewrite E in Hpr. discriminate Hpr.
  - rewrite E in Hl. discriminate Hl.
  - rewrite E in Ha. discriminate Ha.
  - rewrite E in Hso. discriminate Hso.
Qed.

(** X15. Edges of the search schema: arguments that are not an object are
    rejected; a missing filterGroups is rejected as an invalid type found
    at that key; null is not accepted for an optional argument; an empty
    list of filter groups with nothing else is accepted. *)
Theorem search_schema_edges (p : list PathItem) :
  (forall v, (forall fs, v <> VObj fs) ->
     exists issue, searchCompaniesSchema p v = inl issue)
  /\ (forall fs, get "filterGroups" fs = VUndefined ->
        searchCompaniesSchema p (VObj fs)
        = inl {| code := invalid_type "array" "undefined";
                 path := (p ++ [at_key "filterGroups"])%list |})
  /\ (forall fs k,
        In k ["properties"; "limit"; "after"; "sorts"] ->
        get k fs = VNull ->
        exists issue, searchCompaniesSchema p (VObj fs) = inl issue)
  /\ (forall fs,
        get "filterGroups" fs = VArr [] ->
        get "properties" fs = VUndefined -> get "limit" fs = VUndefined ->
        get "after" fs = VUndefined -> get "sorts" fs = VUndefined ->
        searchCompaniesSchema p (VObj fs)
        = inr {| sc_filterGroups := []; sc_properties := None;
                 sc_limit := None; sc_after := None; sc_sorts := None |}).
Proof.
  split; [|split; [|split]].
  - intros v Hv. unfold searchCompaniesSchema, z_object.
    destruct v; eauto. exfalso. eapply Hv. reflexivity.
  - intros fs E. unfold searchCompaniesSchema, z_object, field, z_array.
    rewrite E. reflexivity.
  - intros fs k Hk E.
    destruct (searchCompaniesSchema p (VObj fs)) as [issue|params] eqn:H;
      [eauto|].
    exfalso. exact (schema_optional_not_null _ _ _ _ H Hk E).
  - intros fs Eg Ep El Ea Es.
    unfold searchCompaniesSchema, z_object, field.
    rewrite Eg, Ep, El, Ea, Es. reflexivity.
Qed.

(** *** The query string, encoded and parsed back *)

Lemma urlencode_byte_decode (c : ascii) (t : string) :
  urldecode (urlencode_byte c ++ t) = String c (urldecode t).
Proof. destruct c as [[] [] [] [] [] [] [] []]; reflexivity. Qed.

Lemma urlencode_byte_safe (c : ascii) :
  all_chars urlsafe (urlencode_byte c) = true.
Proof. destruct c as [[] [] [] [] [] [] [] []]; reflexivity. Qed.

Lemma urlsafe_no_separator (c : ascii) :
  urlsafe c = true -> Ascii.eqb c "&" = false /\ Ascii.eqb c "=" = false.
Proof.
  destruct c as [[] [] [] [] [] [] [] []]; intros H;
    try discriminate H; split; reflexivity.
Qed.

Lemma all_chars_app (f : ascii -> bool) (a b : string) :
  all_chars f (a ++ b) = all_chars f a && all_chars f b.
Proof.
  induction a as [|c a IH]; cbn; [reflexivity|].
  rewrite IH. apply andb_assoc.
Qed.

Lemma urlencode_safe (s : string) : all_chars urlsafe (urlencode s) = true.
Proof.
  induction s as [|c s IH]; cbn [urlencode]; [reflexivity|].
  rewrite all_chars_app, urlencode_byte_safe, IH. reflexivity.
Qed.

Lemma urldecode_urlencode (s : string) : urldecode (urlencode s) = s.
Proof.
  induction s as [|c s IH]; cbn [urlencode]; [reflexivity|].
  rewrite urlencode_byte_decode, IH. reflexivity.
Qed.

Lemma split_first_safe (a t : string) :
  all_chars urlsafe a = true ->
  split_first "=" (a ++ String "=" t) = (a, Some t).
Proof.
  induction a as [|c a IH]; cbn [all_chars append].
  - intros _. reflexivity.
  - intros H. apply andb_prop in H. destruct H as [Hc Ha].
    destruct (urlsafe_no_separator c Hc) as [_ Hne].
    cbn [split_first]. rewrite Hne, (IH Ha). reflexivity.
Qed.

Lemma parse_pair_encoded (k v : string) :
  parse_pair (urlencode k ++ "=" ++ urlencode v) = (k, v).
Proof.
  unfold parse_pair.
  change (urlencode k ++ "=" ++ urlencode v)
    with (urlencode k ++ String "=" (urlencode v)).
  rewrite split_first_safe by apply urlencode_safe.
  cbn [fst snd]. rewrite !urldecode_urlencode. reflexivity.
Qed.

Lemma safe_noamp (a : string) : all_chars urlsafe a = true -> noamp a = true.
Proof.
  unfold noamp. induction a as [|c a IH]; cbn [all_chars]; [reflexivity|].
  intros H. apply andb_prop in H. destruct H as [Hc Ha].
  destruct (urlsafe_no_separator c Hc) as [Hne _].
  rewrite Hne, (IH Ha). reflexivity.
Qed.

Lemma pair_noamp (k v : string) :
  noamp (urlencode k ++ "=" ++ urlencode v) = true.
Proof.
  assert (Happ : forall a b, noamp (a ++ b) = noamp a && noamp b)
    by (intros; apply all_chars_app).
  rewrite Happ, (safe_noamp _ (urlencode_safe k)).
  change (noamp ("=" ++ urlencode v)) with (noamp (urlencode v)).
  apply safe_noamp, urlencode_safe.
Qed.

Lemma split_on_noamp (a : string) :
  noamp a = true -> split_on "&" a = [a].
Proof.
  unfold noamp. induction a as [|c a IH]; cbn [all_chars split_on];
    [reflexivity|].
  intros H. apply andb_prop in H. destruct H as [Hc Ha].
  apply negb_true_iff in Hc. rewrite Hc, (IH Ha). reflexivity.
Qed.

Lemma split_on_app (a s : string) :
  noamp a = true ->
  split_on "&" (a ++ String "&" s) = a :: split_on "&" s.
Proof.
  unfold noamp. induction a as [|c a IH]; cbn [all_chars append split_on].
  - intros _. reflexivity.
  - intros H. apply andb_prop in H. destruct H as [Hc Ha].
    apply negb_true_iff in Hc. rewrite Hc, (IH Ha). reflexivity.
Qed.

Lemma pair_nonempty (k v : string) :
  nonempty (urlencode k ++ "=" ++ urlencode v) = true.
Proof. destruct (urlencode k); reflexivity. Qed.

Lemma parseQuery_toString (q : URLSearchParams) :
  parseQuery (URLSearchParams_toString q) = q.
Proof.
  induction q as [|[k v] rest IH]; [reflexivity|].
  destruct rest as [|kv' rest].
  - unfold parseQuery, URLSearchParams_toString. cbn [map String.concat fst snd].
    rewrite split_on_noamp by apply pair_noamp.
    cbn [filter]. rewrite pair_nonempty. cbn [map].
    rewrite parse_pair_encoded. reflexivity.
  - unfold parseQuery, URLSearchParams_toString in *.
    cbn [map String.concat fst snd] in *.
    match goal with
    | |- context [(?a ++ "&" ++ ?b)] =>
        change (a ++ "&" ++ b) with (a ++ String "&" b)
    end.
    rewrite split_on_app by apply pair_noamp.
    cbn [filter]. rewrite pair_nonempty. cbn [map].
    rewrite parse_pair_encoded. f_equal. exact IH.
Qed.

Lemma toString_injective (q q' : URLSearchParams) :
  URLSearchParams_toString q = URLSearchParams_toString q' -> q = q'.
Proof.
  intros H. rewrite <- (parseQuery_toString q), <- (parseQuery_toString q'), H.
  reflexivity.
Qed.

(** X16. The query string built for a request parses back to exactly the
    parameters that were appended; so two parameter lists with the same
    query string are the same list, and an encoded key or value holds no
    character outside letters, digits and * - . _ + %. *)
Theorem query_string_round_trip :
  (forall q : URLSearchParams, parseQuery (URLSearchParams_toString q) = q)
  /\ (forall q q' : URLSearchParams, query_suffix q = query_suffix q' -> q = q')
  /\ (forall s : string,
        urldecode (urlencode s) = s /\ all_chars urlsafe (urlencode s) = true).
Proof.
  split; [exact parseQuery_toString|]. split.
  - intros q q' H. apply toString_injective.
    destruct q as [|kv r].
    + destruct q' as [|kv' r']; [reflexivity|]. exfalso.
      destruct (toString_nonempty (kv' :: r')) as (c & t & E); [discriminate|].
      unfold query_suffix in H. rewrite E in H. discriminate H.
    + destruct (toString_nonempty (kv :: r)) as (c & t & E); [discriminate|].
      destruct q' as [|kv' r'].
      * exfalso. unfold query_suffix in H. rewrite E in H. discriminate H.
      * destruct (toString_nonempty (kv' :: r')) as (c' & t' & E');
          [discriminate|].
        unfold query_suffix in H. rewrite E, E' in H.
        rewrite E, E'. injection H as -> ->. reflexivity.
  - intros s. split; [apply urldecode_urlencode | apply urlencode_safe].
Qed.

(** *** The order of the checks in makeApiRequest *)

(** X17. [makeApiRequest] checks in a fixed order: a missing token is
    reported first, whatever the query parameters are; then a parameter
    whose string form cannot be taken, still before any request; otherwise
    exactly one request is issued, whose URL is the base, the endpoint and
    the query made of the parameters that are not undefined. *)
Theorem makeApiRequest_check_order
    (apiKey : option string) (endpoint : string) (params : obj)
    (meth : string) (payload : option obj) (log : list Request) :
  (truthy apiKey = false ->
   makeApiRequest net apiKey endpoint params meth payload log
   = (inl (Error "HUBSPOT_ACCESS_TOKEN environment variable is not set"), log))
  /\ (truthy apiKey = true -> forallb appendable params = false ->
      exists msg,
        makeApiRequest net apiKey endpoint params meth payload log
        = (inl (TypeError msg), log))
  /\ (truthy apiKey = true -> forallb appendable params = true ->
      snd (makeApiRequest net apiKey endpoint params meth payload log)
      = app log
          [ {| url := "https://api.hubapi.com" ++ endpoint
                      ++ query_suffix (definedEntries params);
               init := requestOptions apiKey meth payload |} ]).
Proof.
  split; [|split].
  - intros Hk. rewrite makeApiRequest_run, Hk. reflexivity.
  - intros Hk Hn. rewrite makeApiRequest_run, Hk. unfold queryOf.
    destruct (appendParams_fails params Hn []) as (msg & E).
    rewrite E. eauto.
  - intros Hk Hn. rewrite makeApiRequest_log, Hk. unfold queryOf.
    rewrite (appendParams_appendable params Hn). reflexivity.
Qed.

(** *** The schema of crm_get_company *)

Lemma parse_elems_In {A : Type} (f : Parser A) (p : list PathItem)
    (l : list value) (i : nat) (ys : list A) (x : value) :
  parse_elems f p i l = inr ys -> In x l ->
  exists p' y, f p' x = inr y.
Proof.
  intros H Hin. apply In_nth_error in Hin. destruct Hin as (j & Hj).
  destruct (parse_elems_nth f p l i ys H j x Hj) as (y & Hy). eauto.
Qed.

(** X18. The schema of [crm_get_company] recovers the arguments from the
    argument object a client sends; it rejects an association name other
    than contacts, deals and tickets, and a missing companyId. *)
Theorem get_company_schema_accepts_and_rejects (p : list PathItem) :
  (forall a : GetCompanyArgs, getCompanySchema p (GetCompanyArgs_value a) = inr a)
  /\ (forall fs l x,
        get "associations" fs = VArr l -> In (VStr x) l ->
        ~ In x ["contacts"; "deals"; "tickets"] ->
        exists issue, getCompanySchema p (VObj fs) = inl issue)
  /\ (forall fs,
        get "companyId" fs = VUndefined ->
        getCompanySchema p (VObj fs)
        = inl {| code := invalid_type "string" "undefined";
                 path := (p ++ [at_key "companyId"])%list |}).
Proof.
  split; [|split].
  - intros [i pr a]. unfold getCompanySchema, GetCompanyArgs_value, z_object, field.
    cbn [gc_companyId gc_properties gc_associations].
    change (get "companyId" _) with (VStr i).
    change (get "properties" _) with (optional strings pr).
    change (get "associations" _)
      with (optional
              (fun l => VArr (map (fun k => VStr (AssociationKind_name k)) l)) a).
    cbn [z_string andThen].
    assert (Hpr : z_optional (z_array z_string) (p ++ [at_key "properties"])%list
                    (optional strings pr) = inr pr).
    { destruct pr as [x|]; [|reflexivity]. unfold z_optional. cbn [optional].
      unfold strings at 1. fold (strings x). rewrite strings_round_trip.
      reflexivity. }
    rewrite Hpr. cbn [andThen].
    destruct a as [l|]; [|reflexivity].
    unfold z_optional, z_array. cbn [optional].
    rewrite (parse_elems_map associationKindSchema
               (fun k => VStr (AssociationKind_name k))).
    + reflexivity.
    + intros p' k. destruct k; reflexivity.
  - intros fs l x Hl Hin Hout.
    destruct (getCompanySchema p (VObj fs)) as [issue|a] eqn:E; [eauto|].
    exfalso. apply Hout.
    unfold getCompanySchema, z_object in E.
    apply andThen_inr in E. destruct E as (i & _ & E).
    apply andThen_inr in E. destruct E as (pr & _ & E).
    apply andThen_inr in E. destruct E as (a' & Ha & _).
    unfold field, z_optional, z_array in Ha. rewrite Hl in Ha.
    apply andThen_inr in Ha. destruct Ha as (ys & Hys & _).
    destruct (parse_elems_In _ _ _ _ _ _ Hys Hin) as (p' & y & Hy).
    unfold associationKindSchema, z_enum in Hy.
    destruct (lookup x _) as [k|] eqn:Hk; [|discriminate Hy].
    apply lookup_In in Hk. exact Hk.
  - intros fs E. unfold getCompanySchema, z_object, field, z_string.
    rewrite E. reflexivity.
Qed.

End Coverage.


(** ** The further properties at concrete inputs *)

#[local] Existing Instance ZNumber.

Lemma upstream_answer_reaches_envelope_witness :
  fst (invoke net404 (Some "token") getCall [])
  = inr (textEnvelope "Error fetching data from HubSpot: Status 404")
  /\ fst (invoke net204 (Some "token") getCall [])
     = inr (textEnvelope "No data returned: Status 204")
  /\ fst (invoke net200 (Some "token") getCall [])
     = inr (formatResponse company).
Proof.
  split; [|split].
  - pose proof (upstream_answer_reaches_envelope net404 "token" getCall []
                  getRequest _ ltac:(discriminate) eq_refl eq_refl) as H.
    cbv zeta in H. destruct H as (H & _). apply H. right. reflexivity.
  - pose proof (upstream_answer_reaches_envelope net204 "token" getCall []
                  getRequest _ ltac:(discriminate) eq_refl eq_refl) as H.
    cbv zeta in H. destruct H as (_ & H & _). apply H. reflexivity.
  - pose proof (upstream_answer_reaches_envelope net200 "token" getCall []
                  getRequest _ ltac:(discriminate) eq_refl eq_refl) as H.
    cbv zeta in H. destruct H as (_ & _ & H). apply H.
    + cbn. lia.
    + cbn. discriminate.
    + reflexivity.
Defined.

Lemma failures_become_prefixed_text_witness :
  invoke offline (Some "token") getCall []
  = (inr (textEnvelope "Error performing request: fetch failed"), [getRequest])
  /\ invoke net200_html (Some "token") getCall []
     = (inr (textEnvelope "Error performing request: Unexpected token '<'"),
        [getRequest]).
Proof.
  split.
  - destruct (failures_become_prefixed_text offline "token" getCall []
                getRequest ltac:(discriminate) eq_refl) as (H & _).
    exact (H (TypeError "fetch failed") eq_refl).
  - destruct (failures_become_prefixed_text net200_html "token" getCall []
                getRequest ltac:(discriminate) eq_refl) as (_ & H).
    apply (H _ (SyntaxError "Unexpected token '<'") eq_refl).
    + cbn. lia.
    + cbn. discriminate.
    + reflexivity.
Defined.

Lemma create_company_request_witness :
  snd (crm_create_company net200 (Some "token") createArgs []) = [createRequest].
Proof.
  destruct (create_company_request net200 "token" createArgs [])
    as (H & _); [discriminate|].
  rewrite H. reflexivity.
Defined.

Lemma update_company_request_witness :
  map (fun r => (method (init r), url r))
    (snd (crm_update_company net200 (Some "token") updateArgs []))
  = [("PATCH", "https://api.hubapi.com/crm/v3/objects/companies/123")].
Proof.
  rewrite (update_company_request net200 "token" updateArgs []);
    [reflexivity | discriminate].
Defined.

Lemma requests_stay_on_hubspot_witness :
  exists rest,
    url getRequest = "https://api.hubapi.com/crm/v3/objects/companies" ++ rest.
Proof.
  destruct (requests_stay_on_hubspot net200 (Some "token") getCall []
              [getRequest] getRequest eq_refl (or_introl eq_refl)) as (H & _).
  exact H.
Defined.

Lemma handleEndpoint_never_raises_witness :
  handleEndpoint raising [] = (inr (textEnvelope "boom"), []).
Proof.
  destruct (handleEndpoint_never_raises raising []) as (_ & _ & H & _).
  exact (H (Error "boom") [] eq_refl).
Defined.

Lemma configured_token_takes_precedence_witness :
  invoke net200 (getConfig (Some EmptyString) (Some "token")) getCall []
  = (inr (textEnvelope
       "Error performing request: HUBSPOT_ACCESS_TOKEN environment variable is not set"),
     [])
  /\ snd (invoke net200 (getConfig None (Some "token")) getCall [])
     = [getRequest].
Proof.
  destruct (configured_token_takes_precedence net200 (Some "token") getCall []
              eq_refl) as (H1 & H2 & _).
  split; [exact H1|]. apply (H2 "token"). discriminate.
Defined.

Lemma earlier_getConfig_falls_back_on_empty_witness :
  Revision1.hubspotAccessToken
    (Revision1.getConfig None (Some "token") None None)
  = getConfig None (Some "token")
  /\ Revision1.hubspotAccessToken
       (Revision1.getConfig (Some EmptyString) (Some "token") None None)
     = Some "token"
  /\ getConfig (Some EmptyString) (Some "token") = Some EmptyString.
Proof.
  split.
  - pose proof (earlier_getConfig_falls_back_on_empty None (Some "token")
                  None None) as H.
    cbv zeta in H. destruct H as (_ & H & _). apply H. discriminate.
  - pose proof (earlier_getConfig_falls_back_on_empty (Some EmptyString)
                  (Some "token") None None) as H.
    cbv zeta in H. destruct H as (_ & _ & H & _). apply H. reflexivity.
Defined.

Lemma search_schema_round_trip_witness :
  searchCompaniesSchema [] (VObj (searchBody searchParams)) = inr searchParams.
Proof.
  apply search_schema_round_trip. cbn. split; reflexivity.
Defined.

Lemma search_schema_edges_witness :
  (exists issue, searchCompaniesSchema [] (VStr "name") = inl issue)
  /\ searchCompaniesSchema [] (VObj [("limit", VNum (Num := ZNumber) 10%Z)])
     = inl {| code := invalid_type "array" "undefined";
              path := [at_key "filterGroups"] |}
  /\ (exists issue,
        searchCompaniesSchema []
          (VObj [("filterGroups", VArr []); ("limit", VNull)]) = inl issue)
  /\ searchCompaniesSchema [] (VObj [("filterGroups", VArr [])])
     = inr {| sc_filterGroups := []; sc_properties := None; sc_limit := None;
              sc_after := None; sc_sorts := None |}.
Proof.
  destruct (search_schema_edges (Num := ZNumber) []) as (H1 & H2 & H3 & H4).
  split; [|split; [|split]].
  - apply H1. discriminate.
  - apply H2. reflexivity.
  - apply (H3 _ "limit"); [cbn; tauto | reflexivity].
  - apply H4; reflexivity.
Defined.

Lemma makeApiRequest_check_order_witness :
  makeApiRequest net200 None "/crm/v3/objects/companies/1"
    [("archived", VNull)] "GET" None []
  = (inl (Error "HUBSPOT_ACCESS_TOKEN environment variable is not set"), [])
  /\ (exists msg,
        makeApiRequest net200 (Some "token") "/crm/v3/objects/companies/1"
          [("archived", VObj [("toString", VStr "x")])] "GET" None []
        = (inl (TypeError msg), []))
  /\ map url
       (snd (makeApiRequest net200 (Some "token") "/crm/v3/objects/companies/1"
               [("archived", VBool false); ("idProperty", VUndefined)]
               "GET" None []))
     = ["https://api.hubapi.com/crm/v3/objects/companies/1?archived=false"].
Proof.
  split; [|split].
  - apply (makeApiRequest_check_order net200 None). reflexivity.
  - apply (makeApiRequest_check_order net200 (Some "token")); reflexivity.
  - destruct (makeApiRequest_check_order net200 (Some "token")
                "/crm/v3/objects/companies/1"
                [("archived", VBool false); ("idProperty", VUndefined)]
                "GET" None []) as (_ & _ & H).
    rewrite H; reflexivity.
Defined.

Lemma queryOf_characterised_witness :
  queryOf [("archived", VBool false); ("idProperty", VUndefined);
           ("properties", VArr [VStr "name"; VNull; VStr "domain"])]
  = inr [("archived", "false"); ("properties", "name,,domain")]
  /\ (exists msg,
        queryOf [("archived", VBool false);
                 ("properties", VArr [VObj [("toString", VNull)]])]
        = inl (TypeError msg))
  /\ queryOf [("archived", VBool false); ("after", VNull)]
     = inl (TypeError "Cannot read properties of null (reading 'toString')")
  /\ queryOf [("archived", VBool false); ("after", VObj [("toString", VStr "x")])]
     = inl (TypeError "value.toString is not a function").
Proof.
  split; [|split; [|split]].
  - destruct (queryOf_characterised (Num := ZNumber)
                [("archived", VBool false); ("idProperty", VUndefined);
                 ("properties", VArr [VStr "name"; VNull; VStr "domain"])])
      as (H & _).
    rewrite H; reflexivity.
  - destruct (queryOf_characterised (Num := ZNumber)
                [("archived", VBool false);
                 ("properties", VArr [VObj [("toString", VNull)]])])
      as (_ & H & _).
    apply H. reflexivity.
  - destruct (queryOf_characterised (Num := ZNumber) [("archived", VBool false)])
      as (_ & _ & H & _).
    apply (H "after" []). reflexivity.
  - destruct (queryOf_characterised (Num := ZNumber) [("archived", VBool false)])
      as (_ & _ & _ & H).
    apply (H "after" [("toString", VStr "x")] []); [reflexivity | discriminate].
Defined.

Lemma get_company_schema_accepts_and_rejects_witness :
  getCompanySchema []
    (GetCompanyArgs_value (get123 (Some ["name"; "domain"])))
  = inr (get123 (Some ["name"; "domain"]))
  /\ (exists issue,
        getCompanySchema []
          (VObj [("companyId", VStr "123");
                 ("associations", VArr [VStr "deals"; VStr "owners"])])
        = inl issue)
  /\ getCompanySchema [] (VObj [("properties", VArr [VStr "name"])])
     = inl {| code := invalid_type "string" "undefined";
              path := [at_key "companyId"] |}.
Proof.
  destruct (get_company_schema_accepts_and_rejects (Num := ZNumber) [])
    as (H1 & H2 & H3).
  split; [apply H1|]. split.
  - apply (H2 _ [VStr "deals"; VStr "owners"] "owners").
    + reflexivity.
    + right. left. reflexivity.
    + cbn. intuition discriminate.
  - apply H3. reflexivity.
Defined.
